(** * Progress channel registry of monkeypoxtoken-be

    A shallow embedding of the server-sent-events registry
    ([middlewares/sse.ts]), of the producer-facing helper
    ([utils/progress.ts]) and of the control flow of the three request
    handlers ([controllers/createToken.ts], [controllers/deployCollection.ts],
    [controllers/mintNFT.ts]), first as single pieces and then with their
    awaits, followed by the properties of the specification that concern
    them. *)

From Stdlib Require Import ZArith NArith Ascii String DecimalString DecimalPos DecimalZ.
From stdpp Require Import gmap strings list.

Local Open Scope Z_scope.
#[local] Set Warnings "-register-all".

(** ** JavaScript values that travel as JSON *)

Module Js.

(** The double quote and the line feed, which string literals of this file
    cannot hold directly. *)
Definition dquote : string := String "034"%char EmptyString.
Definition newline : string := String "010"%char EmptyString.
Definition backslash : string := String "092"%char EmptyString.

(** A parsed JSON document, which is what [express.json()] hands to the
    handlers as [req.body] and what the producers pass as event payloads.
    Numbers are integers (every number the repository emits is one; NaN,
    the infinities and fractions have no counterpart here);
    object members keep their insertion order, as [JSON.stringify] visits
    them in that order. Values that [JSON.stringify] rejects (BigInt,
    cyclic objects) or drops (undefined, functions) are outside this
    type. *)
Inductive JSValue : Type :=
| JNull
| JBool (b : bool)
| JNum (n : Z)
| JStr (s : string)
| JArr (items : list JSValue)
| JObj (members : list (string * JSValue)).

(** [Number.prototype.toString] on an integer: decimal digits, with a
    leading minus sign below zero. This is what JavaScript prints for the
    integers it holds exactly, those below 2^53 in magnitude, among them
    every clock reading and every percentage; beyond them its numbers
    and their digits are not those of the integers. *)
Definition numberToString (n : Z) : string :=
  NilEmpty.string_of_int (Z.to_int n).

Definition hexDigit (n : N) : ascii :=
  if (n <? 10)%N then ascii_of_N (48 + n) else ascii_of_N (87 + n).

(** One character of QuoteJSONString. Strings are byte strings holding
    UTF-8, so bytes from 0x80 upwards pass through unchanged. *)
Definition quoteChar (c : ascii) : string :=
  let n := N_of_ascii c in
  if (n =? 8)%N then backslash +:+ "b"
  else if (n =? 9)%N then backslash +:+ "t"
  else if (n =? 10)%N then backslash +:+ "n"
  else if (n =? 12)%N then backslash +:+ "f"
  else if (n =? 13)%N then backslash +:+ "r"
  else if (n =? 34)%N then backslash +:+ dquote
  else if (n =? 92)%N then backslash +:+ backslash
  else if (n <? 32)%N then
    backslash +:+ "u00" +:+
    String (hexDigit (n / 16)) (String (hexDigit (n mod 16)) EmptyString)
  else String c EmptyString.

Fixpoint quoteBody (s : string) : string :=
  match s with
  | EmptyString => EmptyString
  | String c rest => quoteChar c +:+ quoteBody rest
  end.

Definition quoteJSONString (s : string) : string :=
  dquote +:+ quoteBody s +:+ dquote.

(** Joins already serialized parts with commas: the first part, then every
    other part behind its comma. *)
Fixpoint commaRest (parts : list string) : string :=
  match parts with
  | [] => EmptyString
  | p :: rest => "," +:+ p +:+ commaRest rest
  end.

Definition commaJoin (parts : list string) : string :=
  match parts with
  | [] => EmptyString
  | p :: rest => p +:+ commaRest rest
  end.

(** [JSON.stringify(value)] without indentation. *)
Fixpoint stringify (v : JSValue) : string :=
  match v with
  | JNull => "null"
  | JBool true => "true"
  | JBool false => "false"
  | JNum n => numberToString n
  | JStr s => quoteJSONString s
  | JArr items => "[" +:+ commaJoin (map stringify items) +:+ "]"
  | JObj members =>
      "{" +:+
      commaJoin
        (map (fun kv => quoteJSONString (fst kv) +:+ ":" +:+ stringify (snd kv))
             members) +:+
      "}"
  end.

(** Property read [o.k] on a value that is not [undefined]; [None] is
    [undefined]. An object parsed from JSON keeps the last of several
    members with one name. Arrays and primitives have none of the
    properties the handlers read. *)
Fixpoint lastMember (k : string) (members : list (string * JSValue))
  : option JSValue :=
  match members with
  | [] => None
  | (k', v) :: rest =>
      match lastMember k rest with
      | Some v' => Some v'
      | None => if String.eqb k k' then Some v else None
      end
  end.

Definition getProp (o : JSValue) (k : string) : option JSValue :=
  match o with
  | JObj members => lastMember k members
  | _ => None
  end.

(** ToBoolean, on a value that may be [undefined]. *)
Definition truthy (v : option JSValue) : bool :=
  match v with
  | None => false
  | Some JNull => false
  | Some (JBool b) => b
  | Some (JNum n) => negb (n =? 0)
  | Some (JStr s) => negb (String.eqb s EmptyString)
  | Some (JArr _) => true
  | Some (JObj _) => true
  end.

(** An [Error] object, of which the code reads only [message]. *)
Record Exn : Type := Error { message : string }.

End Js.

Import Js.

(** ** The built-in [Map]: unique keys, iteration in insertion order *)

Module JSMap.
Section Operations.
Context {V : Type}.

(** Entries in insertion order. [new Map()] is [empty]. *)
Definition t : Type := list (string * V).
Definition empty : t := [].

Fixpoint get (k : string) (m : t) : option V :=
  match m with
  | [] => None
  | (k', v) :: rest => if String.eqb k k' then Some v else get k rest
  end.

Definition has (k : string) (m : t) : bool :=
  match get k m with Some _ => true | None => false end.

(** The value of an existing key is replaced where the key stands. *)
Fixpoint replace (k : string) (v : V) (m : t) : t :=
  match m with
  | [] => []
  | (k', v') :: rest =>
      if String.eqb k k' then (k', v) :: rest
      else (k', v') :: replace k v rest
  end.

(** [m.set(k, v)]: a new key goes to the end. *)
Definition set (k : string) (v : V) (m : t) : t :=
  if has k m then replace k v m else m ++ [(k, v)].

(** [m.delete(k)]. *)
Fixpoint delete (k : string) (m : t) : t :=
  match m with
  | [] => []
  | (k', v') :: rest =>
      if String.eqb k k' then delete k rest
      else (k', v') :: delete k rest
  end.

Definition keys (m : t) : list string := map fst m.
Definition values (m : t) : list V := map snd m.

(** How many entries stand under [k]. *)
Fixpoint count (k : string) (m : t) : nat :=
  match m with
  | [] => 0
  | (k', _) :: rest => (if String.eqb k k' then 1 else 0) + count k rest
  end.

(** What the constructor and the three mutators maintain. *)
Definition wf (m : t) : Prop := NoDup (keys m).
End Operations.
Arguments t : clear implicits.
End JSMap.

(** ** The process: registry, framework objects, clock *)

(** [Response] and [Request] objects are identified by reference. *)
Definition Res : Type := nat.
Definition Req : Type := nat.

(** [middlewares/sse.ts], interface [SSEClient]. *)
Module SSEClient.
Record t : Type := mk { id : string; response : Res }.
End SSEClient.

(** Calls the repository makes on framework objects, in the order made.
    [Write] is [res.write(chunk)], [Status] and [Json] are the two halves of
    [res.status(code).json(body)]. *)
Inductive Call : Type :=
| SetHeader (res : Res) (name value : string)
| FlushHeaders (res : Res)
| Write (res : Res) (chunk : string)
| Status (res : Res) (code : Z)
| Json (res : Res) (body : JSValue).

(** The closure [() => { sseManager.removeClient(clientId); }] with the
    identifier it captured. *)
Inductive Listener : Type :=
| RemoveClientOnClose (clientId : string).

(** [clients] is the private field of the singleton [sseManager].
    [listeners] holds the ["close"] listeners added with [req.on], oldest
    first. The rest is the environment: [now] is what [Date.now()] returns
    (milliseconds since the epoch), [faulty] gives the responses whose
    [write] raises at present, with the error raised, and [calls] records
    what the framework was asked to do, delivered or not. The framework's
    [write] is not part of the repository: all that is assumed of it is
    that it either returns or raises. A response of the framework returns,
    also when its peer is gone (the chunk is then dropped); [faulty] is
    there for the question what a [write] that raises does to its
    callers. *)
Record State : Type := mkState {
  clients : JSMap.t SSEClient.t;
  listeners : list (Req * Listener);
  now : N;
  faulty : gmap Res Exn;
  calls : list Call
}.

Definition withClients (f : JSMap.t SSEClient.t -> JSMap.t SSEClient.t) (s : State) : State :=
  mkState (f (clients s)) (listeners s) (now s) (faulty s) (calls s).

Definition withListeners (f : list (Req * Listener) -> list (Req * Listener)) (s : State) : State :=
  mkState (clients s) (f (listeners s)) (now s) (faulty s) (calls s).

Definition logCall (c : Call) (s : State) : State :=
  mkState (clients s) (listeners s) (now s) (faulty s) (calls s ++ [c]).

(** What was written to one response, oldest chunk first. *)
Definition written (res : Res) (cs : list Call) : list string :=
  omap (fun c => match c with
                 | Write r chunk => if Nat.eqb r res then Some chunk else None
                 | _ => None
                 end) cs.

(** ** Statements that may raise *)

Inductive Completion (A : Type) : Type :=
| Normal (a : A)
| Throw (e : Exn).
Arguments Normal {A} a.
Arguments Throw {A} e.

(** A statement runs in a state and completes normally or abruptly; what it
    did before an exception stays done. *)
Definition M (A : Type) : Type := State -> Completion A * State.

Definition ret {A} (a : A) : M A := fun s => (Normal a, s).
Definition raise {A} (e : Exn) : M A := fun s => (Throw e, s).

Definition bind {A B} (m : M A) (k : A -> M B) : M B := fun s =>
  match m s with
  | (Normal a, s') => k a s'
  | (Throw e, s') => (Throw e, s')
  end.

(** [try { body } catch (error) { handler }]. *)
Definition tryCatch {A} (body : M A) (handler : Exn -> M A) : M A := fun s =>
  match body s with
  | (Normal a, s') => (Normal a, s')
  | (Throw e, s') => handler e s'
  end.

Declare Scope js_scope.
Delimit Scope js_scope with js.
Notation "x <- m ;; k" := (bind m (fun x => k))
  (at level 100, m at next level, right associativity) : js_scope.
Notation "m ;; k" := (bind m (fun _ => k))
  (at level 100, right associativity) : js_scope.
Local Open Scope js_scope.

Definition modify (f : State -> State) : M unit := fun s => (Normal tt, f s).
Definition gets {A} (f : State -> A) : M A := fun s => (Normal (f s), s).

(** ** Framework calls *)

Definition setHeader (res : Res) (name value : string) : M unit :=
  modify (logCall (SetHeader res name value)).

Definition flushHeaders (res : Res) : M unit :=
  modify (logCall (FlushHeaders res)).

Definition write (res : Res) (chunk : string) : M unit := fun s =>
  match faulty s !! res with
  | Some e => (Throw e, s)
  | None => (Normal tt, logCall (Write res chunk) s)
  end.

Definition respond (res : Res) (code : Z) (body : JSValue) : M unit :=
  modify (logCall (Status res code)) ;; modify (logCall (Json res body)).

(** [req.on("close", listener)]. *)
Definition onClose (req : Req) (l : Listener) : M unit :=
  modify (withListeners (fun ls => ls ++ [(req, l)])).

(** ** [middlewares/sse.ts] *)

Module SSEManager.

(** The [data: ...] record with its blank line. *)
Definition frame (data : JSValue) : string :=
  "data: " +:+ stringify data +:+ newline +:+ newline.

Definition addClient (client : SSEClient.t) : M unit :=
  modify (withClients (JSMap.set (SSEClient.id client) client)).

Definition removeClient (clientId : string) : M unit :=
  modify (withClients (JSMap.delete clientId)).

Definition sendToClient (clientId : string) (data : JSValue) : M unit :=
  client <- gets (fun s => JSMap.get clientId (clients s)) ;;
  match client with
  | Some client => write (SSEClient.response client) (frame data)
  | None => ret tt
  end.

(** [forEach] over the entries, oldest first; the callback does not touch
    the map, so the entries are those present at the call. *)
Fixpoint forEach (entries : list (string * SSEClient.t)) (f : SSEClient.t -> M unit) : M unit :=
  match entries with
  | [] => ret tt
  | (_, client) :: rest => f client ;; forEach rest f
  end.

Definition broadcast (data : JSValue) : M unit :=
  entries <- gets clients ;;
  forEach entries (fun client => write (SSEClient.response client) (frame data)).

End SSEManager.

(** The request as the handler sees it: [req.params] and [req.body]. *)
Record Request : Type := mkRequest {
  ref : Req;
  params : gmap string string;
  body : JSValue
}.

(** [value.toString()] of [Date.now()]. *)
Definition timestampId (t : N) : string := numberToString (Z.of_N t).

(** [req.params.clientId || Date.now().toString()] at clock reading [t]:
    the empty string is falsy like [undefined]. *)
Definition resolveClientId (req : Request) (t : N) : string :=
  match params req !! "clientId" with
  | Some p => if String.eqb p EmptyString then timestampId t else p
  | None => timestampId t
  end.

Definition runListener (l : Listener) : M unit :=
  match l with
  | RemoveClientOnClose clientId => SSEManager.removeClient clientId
  end.

Definition sseMiddleware (req : Request) (res : Res) : M unit :=
  setHeader res "Content-Type" "text/event-stream" ;;
  setHeader res "Cache-Control" "no-cache" ;;
  setHeader res "Connection" "keep-alive" ;;
  flushHeaders res ;;
  clientId <- gets (fun s => resolveClientId req (now s)) ;;
  SSEManager.addClient (SSEClient.mk clientId res) ;;
  write res (SSEManager.frame
               (JObj [("type", JStr "connected"); ("clientId", JStr clientId)])) ;;
  onClose (ref req) (RemoveClientOnClose clientId).

(** The framework emits ["close"] on a request: its listeners run, oldest
    first. *)
Fixpoint runListeners (req : Req) (ls : list (Req * Listener)) : M unit :=
  match ls with
  | [] => ret tt
  | (r, l) :: rest =>
      (if Nat.eqb r req then runListener l else ret tt) ;; runListeners req rest
  end.

Definition emitClose (req : Req) : M unit :=
  ls <- gets listeners ;; runListeners req ls.

(** ** [utils/progress.ts] *)

Module Progress.

Inductive UpdateType : Type := Token | Collection | Nft.
Inductive UpdateStatus : Type := Started | InProgress | Completed | Failed.

(** Interface [ProgressUpdate]. The members of the two unions are the
    constructors above and have their spelling from [typeName] and
    [statusName]. *)
Record ProgressUpdate : Type := mkUpdate {
  type : UpdateType;
  status : UpdateStatus;
  step : option string;
  progress : option Z;
  message : option string;
  error : option string
}.

Definition typeName (t : UpdateType) : string :=
  match t with
  | Token => "token"
  | Collection => "collection"
  | Nft => "nft"
  end.

Definition statusName (st : UpdateStatus) : string :=
  match st with
  | Started => "started"
  | InProgress => "progress"
  | Completed => "completed"
  | Failed => "error"
  end.

Definition optionalMember (k : string) (v : option JSValue)
  : list (string * JSValue) :=
  match v with
  | Some v => [(k, v)]
  | None => []
  end.

(** The object literal of a call site: every one lists its properties in
    the order of the interface and leaves the absent ones out. *)
Definition toObject (u : ProgressUpdate) : JSValue :=
  JObj ([("type", JStr (typeName (type u)));
         ("status", JStr (statusName (status u)))]
        ++ optionalMember "step" (JStr <$> step u)
        ++ optionalMember "progress" (JNum <$> progress u)
        ++ optionalMember "message" (JStr <$> message u)
        ++ optionalMember "error" (JStr <$> error u)).

Definition sendProgressUpdate (clientId : string) (update : ProgressUpdate) : M unit :=
  SSEManager.sendToClient clientId (toObject update).

(** A terminal event closes an operation. *)
Definition terminal (u : ProgressUpdate) : bool :=
  match status u with
  | Completed | Failed => true
  | Started | InProgress => false
  end.

End Progress.

(** ** The request handlers

    Each handler is given first as the run it makes in one piece, on a
    body that is not [null]: what it publishes and answers, path by path,
    when the process handles nothing else while the run waits for the
    ledger. [Async] further down has the awaits and the read of the body
    as the source has them. *)

Module Controllers.
Import Progress.

(** The handlers pass [req.body.clientId] as it arrived. The keys of the
    registry are strings and [Map] compares without conversion, so any
    other value finds no client. *)
Definition publish (clientId : option JSValue) (update : ProgressUpdate) : M unit :=
  match clientId with
  | Some (JStr c) => sendProgressUpdate c update
  | _ => ret tt
  end.

(** A call into the wallet and ledger libraries: it returns or raises. *)
Definition external {A} (outcome : Exn + A) : M A :=
  match outcome with
  | inl e => raise e
  | inr a => ret a
  end.

(** [o.k] where [o] may be [undefined] or [null]. *)
Definition member (o : option JSValue) (k : string) : M (option JSValue) :=
  match o with
  | None =>
      raise (Error ("Cannot read properties of undefined (reading '" +:+ k +:+ "')"))
  | Some JNull =>
      raise (Error ("Cannot read properties of null (reading '" +:+ k +:+ "')"))
  | Some v => ret (getProp v k)
  end.

Definition stage (t : UpdateType) (name : string) (pct : Z) (msg : string)
  : ProgressUpdate :=
  mkUpdate t InProgress (Some name) (Some pct) (Some msg) None.

(** [controllers/createToken.ts]. The three fields are the outcomes of the
    library calls between one progress event and the next. *)
Record TokenSdk : Type := mkTokenSdk {
  generateMint : Exn + string;
  buildInstructions : Exn + unit;
  serializeTransaction : Exn + string
}.

Definition createToken (sdk : TokenSdk) (req : Request) (res : Res) : M unit :=
  let clientId := getProp (body req) "clientId" in
  tryCatch
    (let name := getProp (body req) "name" in
     let uri := getProp (body req) "uri" in
     let symbol := getProp (body req) "symbol" in
     let publicKey := getProp (body req) "publicKey" in
     publish clientId
       (mkUpdate Token Started None None
          (Some "Preparing token creation transaction") None) ;;
     if negb (truthy name) || negb (truthy uri) || negb (truthy symbol)
        || negb (truthy publicKey)
     then
       respond res 400
         (JObj [("success", JBool false);
                ("message", JStr "Missing required fields: name, uri, symbol, or publicKey");
                ("transaction", JStr EmptyString);
                ("mint", JStr EmptyString)])
     else
       publish clientId
         (stage Token "initialization" 40 "Initializing connection") ;;
       mint <- external (generateMint sdk) ;;
       publish clientId (stage Token "building" 60 "Building transaction") ;;
       external (buildInstructions sdk) ;;
       publish clientId (stage Token "finalizing" 80 "Finalizing transaction") ;;
       base64Transaction <- external (serializeTransaction sdk) ;;
       publish clientId
         (mkUpdate Token Completed None (Some 100)
            (Some "Transaction prepared successfully") None) ;;
       respond res 200
         (JObj [("success", JBool true);
                ("transaction", JStr base64Transaction);
                ("mint", JStr mint);
                ("message", JStr "Transaction prepared successfully")]))
    (fun err =>
       publish clientId
         (mkUpdate Token Failed None None
            (Some ("Failed to prepare transaction: " +:+ Js.message err)) None) ;;
       respond res 500
         (JObj [("success", JBool false);
                ("message", JStr ("Failed to prepare transaction: " +:+ Js.message err));
                ("transaction", JStr EmptyString);
                ("mint", JStr EmptyString)])).

(** [getWalletKeypair], in both controllers: whatever decoding raises is
    replaced by one fixed error. *)
Definition getWalletKeypair (decode : Exn + string) : M string :=
  tryCatch (external decode)
    (fun _ => raise (Error "Invalid private key format. Must be base64 encoded.")).

(** [controllers/deployCollection.ts]. *)
Record CollectionSdk : Type := mkCollectionSdk {
  decodeCollectionKey : Exn + string;
  connectUmi : Exn + unit;
  prepareCollection : Exn + string;
  sendCollection : Exn + string
}.

Definition deployCollection (sdk : CollectionSdk) (req : Request) (res : Res) : M unit :=
  let clientId := getProp (body req) "clientId" in
  tryCatch
    (let name := getProp (body req) "name" in
     let uri := getProp (body req) "uri" in
     let privateKey := getProp (body req) "privateKey" in
     publish clientId
       (mkUpdate Collection Started None None
          (Some "Starting collection deployment process") None) ;;
     publish clientId
       (stage Collection "validation" 20 "Validating input parameters") ;;
     if negb (truthy name) || negb (truthy uri) || negb (truthy privateKey)
     then
       respond res 400
         (JObj [("error", JStr "Missing required fields: name, uri, or privateKey")])
     else
       publish clientId (stage Collection "wallet_init" 40 "Initializing wallet") ;;
       walletKeypair <-
         tryCatch
           (keypair <- getWalletKeypair (decodeCollectionKey sdk) ;; ret (Some keypair))
           (fun err =>
              respond res 400 (JObj [("error", JStr (Js.message err))]) ;;
              ret None) ;;
       match walletKeypair with
       | None => ret tt
       | Some _ =>
           publish clientId
             (stage Collection "connection" 60 "Setting up blockchain connection") ;;
           external (connectUmi sdk) ;;
           publish clientId
             (stage Collection "preparation" 70 "Preparing collection parameters") ;;
           collectionAddress <- external (prepareCollection sdk) ;;
           publish clientId
             (stage Collection "deployment" 80 "Deploying collection to blockchain") ;;
           signature <- external (sendCollection sdk) ;;
           publish clientId
             (mkUpdate Collection Completed None (Some 100)
                (Some "Collection deployed successfully") None) ;;
           respond res 200
             (JObj [("collectionAddress", JStr collectionAddress);
                    ("signature", JStr signature)])
       end)
    (fun err =>
       publish clientId
         (mkUpdate Collection Failed None None
            (Some ("Collection deployment failed: " +:+ Js.message err)) None) ;;
       respond res 500
         (JObj [("error", JStr ("Collection deployment failed: " +:+ Js.message err))])).

(** [controllers/mintNFT.ts]. *)
Record MintSdk : Type := mkMintSdk {
  openConnection : Exn + unit;
  getLatestBlockhash : Exn + unit;
  decodeMintKey : Exn + string;
  initUmi : Exn + unit;
  fetchCollection : Exn + string;
  createAsset : Exn + unit
}.

Definition failure (t : UpdateType) (msg : string) : ProgressUpdate :=
  mkUpdate t Failed None None (Some msg) None.

Definition mintCollectionNFT (sdk : MintSdk) (req : Request) (res : Res) : M unit :=
  let clientId := getProp (body req) "clientId" in
  tryCatch
    (publish clientId
       (mkUpdate Nft Started None None (Some "Starting NFT minting process") None) ;;
     let rpcEndpoint := getProp (body req) "rpcEndpoint" in
     let privateKey := getProp (body req) "privateKey" in
     let collectionMint := getProp (body req) "collectionMint" in
     let metadata := getProp (body req) "metadata" in
     publish clientId (stage Nft "validation" 15 "Validating input parameters") ;;
     if negb (truthy rpcEndpoint) then
       publish clientId (failure Nft "RPC endpoint is required") ;;
       respond res 400 (JObj [("error", JStr "RPC endpoint is required")])
     else if negb (truthy privateKey) then
       publish clientId (failure Nft "Private key is required") ;;
       respond res 400 (JObj [("error", JStr "Private key is required")])
     else
       missing <-
         (if negb (truthy collectionMint) then ret true
          else
            name <- member metadata "name" ;;
            if negb (truthy name) then ret true
            else uri <- member metadata "uri" ;; ret (negb (truthy uri))) ;;
       if (missing : bool) then
         publish clientId
           (failure Nft
              "Missing required fields: collectionMint, metadata.name, or metadata.uri") ;;
         respond res 400
           (JObj [("error",
                   JStr "Missing required fields: collectionMint, metadata.name, or metadata.uri")])
       else
         publish clientId
           (stage Nft "connection" 30 "Initializing blockchain connection") ;;
         external (openConnection sdk) ;;
         reachable <-
           tryCatch
             (external (getLatestBlockhash sdk) ;; ret true)
             (fun _ =>
                publish clientId
                  (failure Nft "Invalid RPC endpoint or connection failed") ;;
                respond res 400
                  (JObj [("error", JStr "Invalid RPC endpoint or connection failed")]) ;;
                ret false) ;;
         if (reachable : bool) then
           publish clientId (stage Nft "wallet_init" 45 "Initializing wallet") ;;
           walletKeypair <-
             tryCatch
               (keypair <- getWalletKeypair (decodeMintKey sdk) ;; ret (Some keypair))
               (fun err =>
                  publish clientId (failure Nft (Js.message err)) ;;
                  respond res 400 (JObj [("error", JStr (Js.message err))]) ;;
                  ret None) ;;
           match walletKeypair with
           | None => ret tt
           | Some _ =>
               publish clientId
                 (stage Nft "umi_init" 60 "Initializing UMI and fetching collection") ;;
               external (initUmi sdk) ;;
               publish clientId
                 (stage Nft "collection_verification" 75
                    "Verifying collection and preparing NFT") ;;
               asset <- external (fetchCollection sdk) ;;
               publish clientId (stage Nft "minting" 90 "Minting NFT on blockchain") ;;
               external (createAsset sdk) ;;
               publish clientId
                 (mkUpdate Nft Completed None (Some 100)
                    (Some "NFT minted successfully") None) ;;
               respond res 200
                 (JObj [("mint", JStr asset); ("metadata", JStr asset)])
           end
         else ret tt)
    (fun err =>
       publish clientId (failure Nft ("NFT minting failed: " +:+ Js.message err)) ;;
       respond res 500
         (JObj [("error", JStr ("NFT minting failed: " +:+ Js.message err))])).

End Controllers.

(** ** The handlers and their awaits

    The three handlers are [async] functions. From one [await] to the
    next a run is a single piece; at an [await] the process turns to
    whatever else has arrived, and the run resumes after it. The
    definitions of [Controllers] are the runs during whose awaits nothing
    else is handled, on a body that is not [null]. Here the awaits stand
    where the source has them, and [req.body.clientId] is read as the
    source reads it, before the [try]. *)

Module Async.
Import Progress Controllers.

(** What the process may handle while a run waits: a connection to the
    streaming endpoint, a closed connection, a call that the run of
    another request makes between its own awaits, a movement of the
    environment. *)
Inductive Step : Type :=
| Connects (req : Request) (res : Res)
| Closes (req : Req)
| Publishes (clientId : option JSValue) (update : ProgressUpdate)
| Answers (res : Res) (code : Z) (body : JSValue)
| Moves (clock : N) (failed : gmap Res Exn).

Definition step (st : Step) (s : State) : State :=
  match st with
  | Connects req res => (sseMiddleware req res s).2
  | Closes req => (emitClose req s).2
  | Publishes clientId update => (publish clientId update s).2
  | Answers res code body => (respond res code body s).2
  | Moves clock failed => mkState (clients s) (listeners s) clock failed (calls s)
  end.

Definition interfere (others : list Step) (s : State) : State :=
  foldl (fun st other => step other st) s others.

(** The run is suspended, the process handles [others], the run
    resumes. *)
Definition await (others : list Step) : M unit := modify (interfere others).

(** [await promise]: the value of the promise, or its rejection raised,
    once the run resumes. A call that raises before it returns a promise
    is the case of nothing handled in between. *)
Definition awaiting {A} (others : list Step) (outcome : Exn + A) : M A :=
  await others ;; external outcome.

(** [controllers/createToken.ts]. The transaction is serialized after two
    awaits, of the latest blockhash and of the build; the outcome of the
    three together is [serializeTransaction], so a rejection of the first
    promise is the case of nothing handled at the second. *)
Definition createToken (atBlockhash atBuild : list Step)
    (sdk : TokenSdk) (req : Request) (res : Res) : M unit :=
  clientId <- member (Some (body req)) "clientId" ;;
  tryCatch
    (let name := getProp (body req) "name" in
     let uri := getProp (body req) "uri" in
     let symbol := getProp (body req) "symbol" in
     let publicKey := getProp (body req) "publicKey" in
     publish clientId
       (mkUpdate Token Started None None
          (Some "Preparing token creation transaction") None) ;;
     if negb (truthy name) || negb (truthy uri) || negb (truthy symbol)
        || negb (truthy publicKey)
     then
       respond res 400
         (JObj [("success", JBool false);
                ("message", JStr "Missing required fields: name, uri, symbol, or publicKey");
                ("transaction", JStr EmptyString);
                ("mint", JStr EmptyString)])
     else
       publish clientId
         (stage Token "initialization" 40 "Initializing connection") ;;
       mint <- external (generateMint sdk) ;;
       publish clientId (stage Token "building" 60 "Building transaction") ;;
       external (buildInstructions sdk) ;;
       publish clientId (stage Token "finalizing" 80 "Finalizing transaction") ;;
       await atBlockhash ;;
       base64Transaction <- awaiting atBuild (serializeTransaction sdk) ;;
       publish clientId
         (mkUpdate Token Completed None (Some 100)
            (Some "Transaction prepared successfully") None) ;;
       respond res 200
         (JObj [("success", JBool true);
                ("transaction", JStr base64Transaction);
                ("mint", JStr mint);
                ("message", JStr "Transaction prepared successfully")]))
    (fun err =>
       publish clientId
         (mkUpdate Token Failed None None
            (Some ("Failed to prepare transaction: " +:+ Js.message err)) None) ;;
       respond res 500
         (JObj [("success", JBool false);
                ("message", JStr ("Failed to prepare transaction: " +:+ Js.message err));
                ("transaction", JStr EmptyString);
                ("mint", JStr EmptyString)])).

(** [controllers/deployCollection.ts]: one await, of the confirmation. *)
Definition deployCollection (atSend : list Step)
    (sdk : CollectionSdk) (req : Request) (res : Res) : M unit :=
  clientId <- member (Some (body req)) "clientId" ;;
  tryCatch
    (let name := getProp (body req) "name" in
     let uri := getProp (body req) "uri" in
     let privateKey := getProp (body req) "privateKey" in
     publish clientId
       (mkUpdate Collection Started None None
          (Some "Starting collection deployment process") None) ;;
     publish clientId
       (stage Collection "validation" 20 "Validating input parameters") ;;
     if negb (truthy name) || negb (truthy uri) || negb (truthy privateKey)
     then
       respond res 400
         (JObj [("error", JStr "Missing required fields: name, uri, or privateKey")])
     else
       publish clientId (stage Collection "wallet_init" 40 "Initializing wallet") ;;
       walletKeypair <-
         tryCatch
           (keypair <- getWalletKeypair (decodeCollectionKey sdk) ;; ret (Some keypair))
           (fun err =>
              respond res 400 (JObj [("error", JStr (Js.message err))]) ;;
              ret None) ;;
       match walletKeypair with
       | None => ret tt
       | Some _ =>
           publish clientId
             (stage Collection "connection" 60 "Setting up blockchain connection") ;;
           external (connectUmi sdk) ;;
           publish clientId
             (stage Collection "preparation" 70 "Preparing collection parameters") ;;
           collectionAddress <- external (prepareCollection sdk) ;;
           publish clientId
             (stage Collection "deployment" 80 "Deploying collection to blockchain") ;;
           signature <- awaiting atSend (sendCollection sdk) ;;
           publish clientId
             (mkUpdate Collection Completed None (Some 100)
                (Some "Collection deployed successfully") None) ;;
           respond res 200
             (JObj [("collectionAddress", JStr collectionAddress);
                    ("signature", JStr signature)])
       end)
    (fun err =>
       publish clientId
         (mkUpdate Collection Failed None None
            (Some ("Collection deployment failed: " +:+ Js.message err)) None) ;;
       respond res 500
         (JObj [("error", JStr ("Collection deployment failed: " +:+ Js.message err))])).

(** [controllers/mintNFT.ts]: three awaits, of the connection test, of the
    collection and of the confirmation. *)
Definition mintCollectionNFT (atTest atFetch atCreate : list Step)
    (sdk : MintSdk) (req : Request) (res : Res) : M unit :=
  clientId <- member (Some (body req)) "clientId" ;;
  tryCatch
    (publish clientId
       (mkUpdate Nft Started None None (Some "Starting NFT minting process") None) ;;
     let rpcEndpoint := getProp (body req) "rpcEndpoint" in
     let privateKey := getProp (body req) "privateKey" in
     let collectionMint := getProp (body req) "collectionMint" in
     let metadata := getProp (body req) "metadata" in
     publish clientId (stage Nft "validation" 15 "Validating input parameters") ;;
     if negb (truthy rpcEndpoint) then
       publish clientId (failure Nft "RPC endpoint is required") ;;
       respond res 400 (JObj [("error", JStr "RPC endpoint is required")])
     else if negb (truthy privateKey) then
       publish clientId (failure Nft "Private key is required") ;;
       respond res 400 (JObj [("error", JStr "Private key is required")])
     else
       missing <-
         (if negb (truthy collectionMint) then ret true
          else
            name <- member metadata "name" ;;
            if negb (truthy name) then ret true
            else uri <- member metadata "uri" ;; ret (negb (truthy uri))) ;;
       if (missing : bool) then
         publish clientId
           (failure Nft
              "Missing required fields: collectionMint, metadata.name, or metadata.uri") ;;
         respond res 400
           (JObj [("error",
                   JStr "Missing required fields: collectionMint, metadata.name, or metadata.uri")])
       else
         publish clientId
           (stage Nft "connection" 30 "Initializing blockchain connection") ;;
         external (openConnection sdk) ;;
         reachable <-
           tryCatch
             (awaiting atTest (getLatestBlockhash sdk) ;; ret true)
             (fun _ =>
                publish clientId
                  (failure Nft "Invalid RPC endpoint or connection failed") ;;
                respond res 400
                  (JObj [("error", JStr "Invalid RPC endpoint or connection failed")]) ;;
                ret false) ;;
         if (reachable : bool) then
           publish clientId (stage Nft "wallet_init" 45 "Initializing wallet") ;;
           walletKeypair <-
             tryCatch
               (keypair <- getWalletKeypair (decodeMintKey sdk) ;; ret (Some keypair))
               (fun err =>
                  publish clientId (failure Nft (Js.message err)) ;;
                  respond res 400 (JObj [("error", JStr (Js.message err))]) ;;
                  ret None) ;;
           match walletKeypair with
           | None => ret tt
           | Some _ =>
               publish clientId
                 (stage Nft "umi_init" 60 "Initializing UMI and fetching collection") ;;
               external (initUmi sdk) ;;
               publish clientId
                 (stage Nft "collection_verification" 75
                    "Verifying collection and preparing NFT") ;;
               asset <- awaiting atFetch (fetchCollection sdk) ;;
               publish clientId (stage Nft "minting" 90 "Minting NFT on blockchain") ;;
               awaiting atCreate (createAsset sdk) ;;
               publish clientId
                 (mkUpdate Nft Completed None (Some 100)
                    (Some "NFT minted successfully") None) ;;
               respond res 200
                 (JObj [("mint", JStr asset); ("metadata", JStr asset)])
           end
         else ret tt)
    (fun err =>
       publish clientId (failure Nft ("NFT minting failed: " +:+ Js.message err)) ;;
       respond res 500
         (JObj [("error", JStr ("NFT minting failed: " +:+ Js.message err))])).

End Async.

Import SSEManager.

(** ** Vocabulary of the statements *)

Definition appendCalls (cs : list Call) (s : State) : State :=
  mkState (clients s) (listeners s) (now s) (faulty s) (calls s ++ cs).

(** The writes of one broadcast over [entries], oldest entry first. *)
Definition broadcastWrites (data : JSValue) (entries : list (string * SSEClient.t))
  : list Call :=
  map (fun kv => Write (SSEClient.response kv.2) (frame data)) entries.

(** No registered response raises on [write]. *)
Definition accepting (s : State) (entries : list (string * SSEClient.t)) : Prop :=
  Forall (fun kv => faulty s !! SSEClient.response kv.2 = None) entries.

Definition isDigit (c : ascii) : bool :=
  ((48 <=? N_of_ascii c) && (N_of_ascii c <=? 57))%N.

Fixpoint allDigits (s : string) : bool :=
  match s with
  | EmptyString => true
  | String c rest => isDigit c && allDigits rest
  end.

(** A numeric string: at least one character, decimal digits only. *)
Definition numeric (s : string) : bool :=
  negb (String.eqb s EmptyString) && allDigits s.

(** The number a string of decimal digits denotes. *)
Definition readClock (id : string) : option N :=
  N.of_uint <$> NilEmpty.uint_of_string id.

(** A string literal between double quotes, as it stands in a frame. *)
Definition quoted (s : string) : string := dquote +:+ s +:+ dquote.

(** The first frame of a stream, with the identifier as JSON writes it. *)
Definition connectedFrame (clientId : string) : string :=
  "data: {" +:+ quoted "type" +:+ ":" +:+ quoted "connected" +:+ ","
  +:+ quoted "clientId" +:+ ":" +:+ quoteJSONString clientId +:+ "}"
  +:+ newline +:+ newline.

(** What a completed run of [sseMiddleware] asks of the response. *)
Definition connectionCalls (res : Res) (clientId : string) : list Call :=
  [SetHeader res "Content-Type" "text/event-stream";
   SetHeader res "Cache-Control" "no-cache";
   SetHeader res "Connection" "keep-alive";
   FlushHeaders res;
   Write res (connectedFrame clientId)].

(** A character that QuoteJSONString leaves as it is. *)
Definition plainChar (c : ascii) : bool :=
  let n := N_of_ascii c in
  (negb (n <? 32) && negb (n =? 34) && negb (n =? 92))%N.

Fixpoint allPlain (s : string) : bool :=
  match s with
  | EmptyString => true
  | String c rest => plainChar c && allPlain rest
  end.

(** Publishes of several producers as they interleave: each pair is one
    call of [sendProgressUpdate]. *)
Fixpoint publishSeq (ps : list (string * Progress.ProgressUpdate)) : M unit :=
  match ps with
  | [] => ret tt
  | (k, u) :: rest => Progress.sendProgressUpdate k u ;; publishSeq rest
  end.

(** The frames of [ps] that are due to response [h] under registry [m]. *)
Definition framesDue (m : JSMap.t SSEClient.t) (h : Res)
    (ps : list (string * Progress.ProgressUpdate)) : list string :=
  omap (fun ku =>
          match JSMap.get ku.1 m with
          | Some client =>
              if Nat.eqb (SSEClient.response client) h
              then Some (frame (Progress.toObject ku.2)) else None
          | None => None
          end) ps.

(** The stream of [h] carries a terminal event. *)
Definition carriesTerminal (h : Res) (cs : list Call) : Prop :=
  exists u, Progress.terminal u = true /\ frame (Progress.toObject u) ∈ written h cs.

(** A statement that leaves the registry as it found it. *)
Definition keepsClients {A} (m : M A) : Prop :=
  forall s, clients (m s).2 = clients s.

(** What can happen to the process: a request reaches one of the four
    routes, the framework reports a closed connection, or the environment
    moves (the clock advances, transports fail or recover). *)
Inductive Event : Type :=
| Connect (req : Request) (res : Res)
| Closed (req : Req)
| CreateToken (sdk : Controllers.TokenSdk) (req : Request) (res : Res)
| DeployCollection (sdk : Controllers.CollectionSdk) (req : Request) (res : Res)
| MintNFT (sdk : Controllers.MintSdk) (req : Request) (res : Res)
| Environment (clock : N) (failed : gmap Res Exn).

Definition handle (ev : Event) (s : State) : State :=
  match ev with
  | Connect req res => (sseMiddleware req res s).2
  | Closed req => (emitClose req s).2
  | CreateToken sdk req res => (Controllers.createToken sdk req res s).2
  | DeployCollection sdk req res => (Controllers.deployCollection sdk req res s).2
  | MintNFT sdk req res => (Controllers.mintCollectionNFT sdk req res s).2
  | Environment clock failed =>
      mkState (clients s) (listeners s) clock failed (calls s)
  end.

(** The process at start: [new Map()], no listener, nothing written. *)
Definition initial (clock : N) : State := mkState JSMap.empty [] clock ∅ [].

(** Publishing a batch to one identifier, in list order. *)
Fixpoint publishAll (clientId : string) (updates : list Progress.ProgressUpdate) : M unit :=
  match updates with
  | [] => ret tt
  | u :: rest => Progress.sendProgressUpdate clientId u ;; publishAll clientId rest
  end.

(** ** Vocabulary of the further properties *)

(** Sending one payload to each of the identifiers in turn. *)
Fixpoint sendEach (data : JSValue) (ks : list string) : M unit :=
  match ks with
  | [] => ret tt
  | k :: rest => sendToClient k data ;; sendEach data rest
  end.

(** Every entry stands under the [id] of its client. *)
Definition filedById (m : JSMap.t SSEClient.t) : Prop :=
  Forall (fun kv => kv.1 = SSEClient.id kv.2) m.

(** The responses a registry holds. *)
Definition responses (m : JSMap.t SSEClient.t) : list Res :=
  map (fun kv => SSEClient.response kv.2) m.

(** A call that writes [chunk] to a response among [rs]. *)
Definition writesTo (rs : list Res) (chunk : string) (c : Call) : Prop :=
  exists r, r ∈ rs /\ c = Write r chunk.

(** What the close listeners of [req] among [ls] make of a registry. *)
Fixpoint closing (req : Req) (ls : list (Req * Listener))
    (m : JSMap.t SSEClient.t) : JSMap.t SSEClient.t :=
  match ls with
  | [] => m
  | (r, RemoveClientOnClose k) :: rest =>
      closing req rest (if Nat.eqb r req then JSMap.delete k m else m)
  end.

(** A character that is no control character. *)
Definition printable (c : ascii) : bool := (32 <=? N_of_ascii c)%N.

Fixpoint allPrintable (s : string) : bool :=
  match s with
  | EmptyString => true
  | String c rest => printable c && allPrintable rest
  end.

Definition hexValue (c : ascii) : option N :=
  let n := N_of_ascii c in
  if ((48 <=? n) && (n <=? 57))%N then Some (n - 48)%N
  else if ((97 <=? n) && (n <=? 102))%N then Some (n - 87)%N
  else None.

Definition pushChar (c : ascii) (r : option (string * string))
  : option (string * string) :=
  match r with
  | Some (read, rest) => Some (String c read, rest)
  | None => None
  end.

(** A reader of JSON string bodies, as a consumer of the stream has one:
    the characters up to the closing quote, escapes undone, and what
    follows the quote. Of the [\u] escapes it knows those of one byte. *)
Fixpoint readString (s : string) : option (string * string) :=
  match s with
  | EmptyString => None
  | String c rest =>
      if (N_of_ascii c =? 34)%N then Some (EmptyString, rest)
      else if (N_of_ascii c =? 92)%N then
        match rest with
        | String e rest' =>
            let n := N_of_ascii e in
            if (n =? 98)%N then pushChar "008"%char (readString rest')
            else if (n =? 116)%N then pushChar "009"%char (readString rest')
            else if (n =? 110)%N then pushChar "010"%char (readString rest')
            else if (n =? 102)%N then pushChar "012"%char (readString rest')
            else if (n =? 114)%N then pushChar "013"%char (readString rest')
            else if (n =? 34)%N then pushChar "034"%char (readString rest')
            else if (n =? 92)%N then pushChar "092"%char (readString rest')
            else if (n =? 117)%N then
              match rest' with
              | String a (String b (String h (String l rest''))) =>
                  if ((N_of_ascii a =? 48) && (N_of_ascii b =? 48))%N then
                    match hexValue h, hexValue l with
                    | Some x, Some y =>
                        pushChar (ascii_of_N (16 * x + y)) (readString rest'')
                    | _, _ => None
                    end
                  else None
              | _ => None
              end
            else None
        | EmptyString => None
        end
      else pushChar c (readString rest)
  end.

(** The writes of a run that published [us] to response [h]. *)
Definition published (h : Res) (us : list Progress.ProgressUpdate) : list Call :=
  map (fun u => Write h (frame (Progress.toObject u))) us.

(** One terminal event, and it is the last event. *)
Definition closesOnce (us : list Progress.ProgressUpdate) : bool :=
  match reverse us with
  | u :: earlier =>
      Progress.terminal u && forallb (fun v => negb (Progress.terminal v)) earlier
  | [] => false
  end.

(** The terminal event [u] and the answer agree: [completed] with 200, or
    [error] with another status and the message of the event under [field]
    of the body. *)
Definition agrees (field : string) (u : Progress.ProgressUpdate)
    (code : Z) (body : JSValue) : Prop :=
  (code = 200 /\ Progress.status u = Progress.Completed) \/
  (code <> 200 /\ Progress.status u = Progress.Failed /\
   exists msg, Progress.message u = Some msg /\ getProp body field = Some (JStr msg)).

(** A run on state [s] that completed normally, published to [h] a list of
    events that closes once, then answered on [res] in agreement with the
    terminal event, and did nothing else. *)
Definition closedRun (field : string) (h res : Res) (s : State)
    (r : Completion unit * State) : Prop :=
  exists us code body,
    r = (Normal tt, appendCalls (published h us ++ [Status res code; Json res body]) s) /\
    closesOnce us = true /\
    match last us with
    | Some u => agrees field u code body
    | None => False
    end.

(** A run that completed normally and did nothing but answer once. *)
Definition answeredOnly (res : Res) (s : State) (r : Completion unit * State) : Prop :=
  exists code body, r = (Normal tt, appendCalls [Status res code; Json res body] s).

(** The identifier a request body names is registered to nobody. *)
Definition unheard (s : State) (clientId : option JSValue) : Prop :=
  forall c, clientId = Some (JStr c) -> JSMap.get c (clients s) = None.

(** An optional member as it stands in a frame behind the first two:
    nothing when absent, else a comma, the name and the value. *)
Definition memberText (k : string) (value : option string) : string :=
  match value with
  | Some v => "," +:+ quoted k +:+ ":" +:+ v
  | None => EmptyString
  end.

(** What follows type and status in the frame of an event. *)
Definition frameTail (u : Progress.ProgressUpdate) : string :=
  memberText "step" (quoteJSONString <$> Progress.step u)
  +:+ memberText "progress" (numberToString <$> Progress.progress u)
  +:+ memberText "message" (quoteJSONString <$> Progress.message u)
  +:+ memberText "error" (quoteJSONString <$> Progress.error u)
  +:+ "}" +:+ newline +:+ newline.

(** What precedes it. *)
Definition frameHead (t : Progress.UpdateType) (st : Progress.UpdateStatus) : string :=
  "data: {" +:+ quoted "type" +:+ ":" +:+ quoted (Progress.typeName t) +:+ ","
  +:+ quoted "status" +:+ ":" +:+ quoted (Progress.statusName st).

(** The string begins with neither a digit nor a minus sign. *)
Definition endsNumber (r : string) : Prop :=
  match r with
  | String c _ => isDigit c = false /\ (N_of_ascii c =? 45)%N = false
  | EmptyString => True
  end.

(** A statement that changes nothing but the record of calls. *)
Definition onlyLogs {A} (m : M A) : Prop :=
  forall s, exists cs, (m s).2 = appendCalls cs s.

(** ** Vocabulary of runs that wait *)





(** The state in which a run that published nothing resumes after the
    awaits of [awaits]. *)
Definition waited (awaits : list (list Async.Step)) (s : State) : State :=
  foldl (fun st others => Async.interfere others st) s awaits.




(** A value whose properties can be read: neither [undefined] nor
    [null]. *)
Definition readable (o : option JSValue) : option JSValue :=
  match o with
  | None | Some JNull => None
  | Some v => Some v
  end.

(** How many of its pieces a run of [createToken] completes: it waits
    once validation has passed and the two library calls before the
    await have returned. *)
Definition tokenAwaits (sdk : Controllers.TokenSdk) (req : Request) : nat :=
  if negb (truthy (getProp (body req) "name"))
     || negb (truthy (getProp (body req) "uri"))
     || negb (truthy (getProp (body req) "symbol"))
     || negb (truthy (getProp (body req) "publicKey"))
  then 0%nat
  else
    match Controllers.generateMint sdk with
    | inl _ => 0%nat
    | inr _ =>
        match Controllers.buildInstructions sdk with
        | inl _ => 0%nat
        | inr _ => 1%nat
        end
    end.

(** The same for [deployCollection], which waits once validation has
    passed, the key has decoded and the two library calls before the
    await have returned. *)
Definition collectionAwaits (sdk : Controllers.CollectionSdk) (req : Request) : nat :=
  if negb (truthy (getProp (body req) "name"))
     || negb (truthy (getProp (body req) "uri"))
     || negb (truthy (getProp (body req) "privateKey"))
  then 0%nat
  else
    match Controllers.decodeCollectionKey sdk with
    | inl _ => 0%nat
    | inr _ =>
        match Controllers.connectUmi sdk with
        | inl _ => 0%nat
        | inr _ =>
            match Controllers.prepareCollection sdk with
            | inl _ => 0%nat
            | inr _ => 1%nat
            end
        end
    end.

(** The same for [mintCollectionNFT]: it waits for the connection test
    once validation has passed and the connection object is made, for
    the collection once the test has passed, the key has decoded and the
    ledger client is set up, and for the confirmation once the collection
    has arrived. *)
Definition mintAwaits (sdk : Controllers.MintSdk) (req : Request) : nat :=
  if negb (truthy (getProp (body req) "rpcEndpoint")) then 0%nat
  else if negb (truthy (getProp (body req) "privateKey")) then 0%nat
  else if negb (truthy (getProp (body req) "collectionMint")) then 0%nat
  else
    match readable (getProp (body req) "metadata") with
    | None => 0%nat
    | Some metadata =>
        if negb (truthy (getProp metadata "name")) then 0%nat
        else if negb (truthy (getProp metadata "uri")) then 0%nat
        else
          match Controllers.openConnection sdk with
          | inl _ => 0%nat
          | inr _ =>
              match Controllers.getLatestBlockhash sdk with
              | inl _ => 1%nat
              | inr _ =>
                  match Controllers.decodeMintKey sdk with
                  | inl _ => 1%nat
                  | inr _ =>
                      match Controllers.initUmi sdk with
                      | inl _ => 1%nat
                      | inr _ =>
                          match Controllers.fetchCollection sdk with
                          | inl _ => 2%nat
                          | inr _ => 3%nat
                          end
                      end
                  end
              end
          end
    end.

(** ** A reader of frames

    What a consumer of the stream does with a chunk: it takes the fixed
    text for granted, reads the strings with [readString] and the number
    in decimal, and rejects anything else. *)

(** [s] without [p], when it begins with [p]. *)
Fixpoint stripPrefix (p s : string) : option string :=
  match p with
  | EmptyString => Some s
  | String a p' =>
      match s with
      | String b s' => if Ascii.eqb a b then stripPrefix p' s' else None
      | EmptyString => None
      end
  end.

(** The decimal digits a string begins with, and what follows them. *)
Fixpoint leadingDigits (s : string) : string * string :=
  match s with
  | EmptyString => (EmptyString, EmptyString)
  | String c rest =>
      if isDigit c
      then (String c (leadingDigits rest).1, (leadingDigits rest).2)
      else (EmptyString, s)
  end.

(** An integer in decimal at the head of [s], and what follows it. *)
Definition readInteger (s : string) : option (Z * string) :=
  let negative :=
    match s with
    | String c _ => (N_of_ascii c =? 45)%N
    | EmptyString => false
    end in
  let body :=
    match s with
    | String _ rest => if negative then rest else s
    | EmptyString => s
    end in
  let digits := leadingDigits body in
  if String.eqb digits.1 EmptyString then None
  else
    match readClock digits.1 with
    | Some n => Some (if negative then - Z.of_N n else Z.of_N n, digits.2)
    | None => None
    end.

(** An optional member named [k] at the head of [s]: its value and what
    follows it, or no value and [s]. A member whose value cannot be read
    is an error. *)
Definition readTextMember (k s : string) : option (option string * string) :=
  match stripPrefix ("," +:+ quoted k +:+ ":" +:+ dquote) s with
  | Some rest =>
      match readString rest with
      | Some (value, rest') => Some (Some value, rest')
      | None => None
      end
  | None => Some (None, s)
  end.

Definition readNumberMember (k s : string) : option (option Z * string) :=
  match stripPrefix ("," +:+ quoted k +:+ ":") s with
  | Some rest =>
      match readInteger rest with
      | Some (value, rest') => Some (Some value, rest')
      | None => None
      end
  | None => Some (None, s)
  end.

Definition typeOfName (name : string) : option Progress.UpdateType :=
  if String.eqb name "token" then Some Progress.Token
  else if String.eqb name "collection" then Some Progress.Collection
  else if String.eqb name "nft" then Some Progress.Nft
  else None.

Definition statusOfName (name : string) : option Progress.UpdateStatus :=
  if String.eqb name "started" then Some Progress.Started
  else if String.eqb name "progress" then Some Progress.InProgress
  else if String.eqb name "completed" then Some Progress.Completed
  else if String.eqb name "error" then Some Progress.Failed
  else None.

(** Type and status of an event frame, and what follows them. *)
Definition readHead (chunk : string)
  : option (Progress.UpdateType * Progress.UpdateStatus * string) :=
  rest ← stripPrefix ("data: {" +:+ quoted "type" +:+ ":" +:+ dquote) chunk;
  '(name, rest) ← readString rest;
  t ← typeOfName name;
  rest ← stripPrefix ("," +:+ quoted "status" +:+ ":" +:+ dquote) rest;
  '(name, rest) ← readString rest;
  st ← statusOfName name;
  Some (t, st, rest).

(** The event a frame carries. *)
Definition readEvent (chunk : string) : option Progress.ProgressUpdate :=
  '(t, st, rest) ← readHead chunk;
  '(step, rest) ← readTextMember "step" rest;
  '(progress, rest) ← readNumberMember "progress" rest;
  '(message, rest) ← readTextMember "message" rest;
  '(error, rest) ← readTextMember "error" rest;
  if String.eqb rest ("}" +:+ newline +:+ newline)
  then Some (Progress.mkUpdate t st step progress message error)
  else None.

(** The identifier a connected frame carries. *)
Definition readConnected (chunk : string) : option string :=
  rest ← stripPrefix
           ("data: {" +:+ quoted "type" +:+ ":" +:+ quoted "connected" +:+ ","
            +:+ quoted "clientId" +:+ ":" +:+ dquote) chunk;
  '(clientId, rest) ← readString rest;
  if String.eqb rest ("}" +:+ newline +:+ newline) then Some clientId else None.

(** An integer that JavaScript holds exactly and prints in full:
    [Number.isSafeInteger]. *)
Definition safeInteger (n : Z) : bool := Z.abs n <? 2 ^ 53.

(** The [progress] of an event, when present, is such an integer, as the
    percentages of the handlers are. *)
Definition safeProgress (u : Progress.ProgressUpdate) : Prop :=
  forall n, Progress.progress u = Some n -> safeInteger n = true.

(** ** States used as examples *)

Module Sample.
Import Progress.

Definition abc : SSEClient.t := SSEClient.mk "abc" 1%nat.
Definition xyz : SSEClient.t := SSEClient.mk "xyz" 2%nat.
Definition pqr : SSEClient.t := SSEClient.mk "pqr" 3%nat.

(** Two open streams, nothing written yet. *)
Definition idle : State :=
  mkState [("abc", abc); ("xyz", xyz)] [] 1700000000000%N ∅ [].

(** Three open streams. *)
Definition three : State :=
  mkState [("abc", abc); ("xyz", xyz); ("pqr", pqr)] [] 1700000000000%N ∅ [].

(** The response of [abc] is a stand-in whose [write] raises. A response
    of the framework does not: with the peer gone it drops the chunk and
    returns. *)
Definition raisingWrite : State :=
  mkState [("abc", abc); ("xyz", xyz)] [] 1700000000000%N
    {[ 1%nat := Error "write EPIPE" ]} [].

Definition tokenStarted : ProgressUpdate :=
  mkUpdate Token Started None None (Some "Preparing token creation transaction") None.
Definition tokenBuilding : ProgressUpdate :=
  mkUpdate Token InProgress (Some "building") (Some 60) (Some "Building transaction") None.
Definition tokenCompleted : ProgressUpdate :=
  mkUpdate Token Completed None (Some 100) (Some "Transaction prepared successfully") None.

(** A token request that lacks [name]. *)
Definition tokenWithoutName : Request :=
  mkRequest 9%nat ∅
    (JObj [("clientId", JStr "abc");
           ("uri", JStr "https://arweave.net/metadata.json");
           ("symbol", JStr "MPX");
           ("publicKey", JStr "D4ScX2jf2nkb8ovbFfB8zorpnKrLTXcAXzsc2PZxK92U")]).

(** A collection request that lacks [privateKey]. *)
Definition collectionWithoutKey : Request :=
  mkRequest 10%nat ∅
    (JObj [("clientId", JStr "abc");
           ("name", JStr "Test Collection");
           ("uri", JStr "https://arweave.net/metadata.json")]).

(** Requests that pass validation. *)
Definition tokenRequest : Request :=
  mkRequest 12%nat ∅
    (JObj [("clientId", JStr "abc");
           ("name", JStr "Monkeypox");
           ("uri", JStr "https://arweave.net/metadata.json");
           ("symbol", JStr "MPX");
           ("publicKey", JStr "D4ScX2jf2nkb8ovbFfB8zorpnKrLTXcAXzsc2PZxK92U")]).

Definition collectionRequest : Request :=
  mkRequest 13%nat ∅
    (JObj [("clientId", JStr "abc");
           ("name", JStr "Test Collection");
           ("uri", JStr "https://arweave.net/metadata.json");
           ("privateKey", JStr "c2VjcmV0")]).


(** A mint request that lacks [rpcEndpoint]. *)
Definition mintWithoutEndpoint : Request :=
  mkRequest 11%nat ∅
    (JObj [("clientId", JStr "abc");
           ("privateKey", JStr "c2VjcmV0");
           ("collectionMint", JStr "EJRG9dgrFhKwMbdr1zPx77hLoq2gG1sxD8wW5nWDNHwR")]).

(** Library calls that all return. *)
Definition tokenSdk : Controllers.TokenSdk :=
  Controllers.mkTokenSdk (inr "mintAddress") (inr tt) (inr "dHJhbnNhY3Rpb24=").
Definition collectionSdk : Controllers.CollectionSdk :=
  Controllers.mkCollectionSdk (inr "keypair") (inr tt) (inr "collectionAddress")
    (inr "signature").
Definition mintSdk : Controllers.MintSdk :=
  Controllers.mkMintSdk (inr tt) (inr tt) (inr "keypair") (inr tt) (inr "asset")
    (inr tt).

Definition noParams : gmap string string := ∅.
Definition connectAbc : Request := mkRequest 7%nat {[ "clientId" := "abc" ]} JNull.
Definition connectAnonymous : Request := mkRequest 8%nat noParams JNull.
End Sample.

(** * Properties *)

(** ** The map *)

Section MapFacts.
Context {V : Type}.
Implicit Types (m : JSMap.t V) (k : string) (v : V).

Lemma get_replace_same k v m :
  JSMap.has k m = true -> JSMap.get k (JSMap.replace k v m) = Some v.
Proof.
  unfold JSMap.has. induction m as [|[k' v'] m IH]; simpl; [discriminate|].
  destruct (String.eqb k k') eqn:E; simpl; rewrite E; auto.
Qed.

Lemma get_app_miss k m m' :
  JSMap.get k m = None -> JSMap.get k (m ++ m') = JSMap.get k m'.
Proof.
  induction m as [|[k' v'] m IH]; simpl; [reflexivity|].
  destruct (String.eqb k k'); [discriminate|auto].
Qed.

Lemma get_set_same k v m : JSMap.get k (JSMap.set k v m) = Some v.
Proof.
  unfold JSMap.set. destruct (JSMap.has k m) eqn:H.
  - now apply get_replace_same.
  - unfold JSMap.has in H. destruct (JSMap.get k m) eqn:G; [discriminate|].
    rewrite get_app_miss by assumption. simpl. now rewrite String.eqb_refl.
Qed.

Lemma get_replace_other k k' v m :
  k <> k' -> JSMap.get k' (JSMap.replace k v m) = JSMap.get k' m.
Proof.
  intros Hne. induction m as [|[k0 v0] m IH]; simpl; [reflexivity|].
  destruct (String.eqb k k0) eqn:E; simpl.
  - apply String.eqb_eq in E. subst k0.
    destruct (String.eqb k' k) eqn:E'; [|reflexivity].
    apply String.eqb_eq in E'. congruence.
  - destruct (String.eqb k' k0); auto.
Qed.

Lemma get_app k m m' :
  JSMap.get k (m ++ m') =
  match JSMap.get k m with Some v => Some v | None => JSMap.get k m' end.
Proof.
  induction m as [|[k' v'] m IH]; simpl; [reflexivity|].
  destruct (String.eqb k k'); auto.
Qed.

Lemma get_set_other k k' v m :
  k <> k' -> JSMap.get k' (JSMap.set k v m) = JSMap.get k' m.
Proof.
  intros Hne. unfold JSMap.set. destruct (JSMap.has k m).
  - now apply get_replace_other.
  - rewrite get_app. destruct (JSMap.get k' m); [reflexivity|]. simpl.
    destruct (String.eqb k' k) eqn:E; [|reflexivity].
    apply String.eqb_eq in E. congruence.
Qed.

Lemma get_delete_same k m : JSMap.get k (JSMap.delete k m) = None.
Proof.
  induction m as [|[k' v'] m IH]; simpl; [reflexivity|].
  destruct (String.eqb k k') eqn:E; simpl; [assumption|]. now rewrite E.
Qed.

Lemma get_delete_other k k' m :
  k <> k' -> JSMap.get k' (JSMap.delete k m) = JSMap.get k' m.
Proof.
  intros Hne. induction m as [|[k0 v0] m IH]; simpl; [reflexivity|].
  destruct (String.eqb k k0) eqn:E; simpl.
  - apply String.eqb_eq in E. subst k0.
    destruct (String.eqb k' k) eqn:E'; [|assumption].
    apply String.eqb_eq in E'. congruence.
  - destruct (String.eqb k' k0); auto.
Qed.

(** Deleting never brings a key back. *)
Lemma get_delete_none k k' m :
  JSMap.get k' m = None -> JSMap.get k' (JSMap.delete k m) = None.
Proof.
  induction m as [|[k0 v0] m IH]; simpl; [reflexivity|].
  destruct (String.eqb k' k0) eqn:E'; [discriminate|]. intros H.
  destruct (String.eqb k k0); simpl; [auto|]. rewrite E'. auto.
Qed.

Lemma keys_replace k v m : JSMap.keys (JSMap.replace k v m) = JSMap.keys m.
Proof.
  induction m as [|[k' v'] m IH]; simpl; [reflexivity|].
  destruct (String.eqb k k'); simpl; [reflexivity|]. f_equal. exact IH.
Qed.

Lemma get_none_not_key k m : JSMap.get k m = None <-> k ∉ JSMap.keys m.
Proof.
  induction m as [|[k' v'] m IH]; simpl.
  - split; [intros _; apply not_elem_of_nil|reflexivity].
  - rewrite not_elem_of_cons. destruct (String.eqb k k') eqn:E.
    + apply String.eqb_eq in E. split; [discriminate|]. intros [? _]. congruence.
    + apply String.eqb_neq in E. rewrite IH. tauto.
Qed.

Lemma wf_empty : JSMap.wf (@JSMap.empty V).
Proof. apply NoDup_nil_2. Qed.

Lemma wf_set k v m : JSMap.wf m -> JSMap.wf (JSMap.set k v m).
Proof.
  unfold JSMap.wf, JSMap.set, JSMap.has. intros Hwf.
  destruct (JSMap.get k m) eqn:G.
  - now rewrite keys_replace.
  - unfold JSMap.keys. rewrite map_app. simpl.
    apply NoDup_app. split; [exact Hwf|]. split.
    + intros x Hx Hin. apply list_elem_of_singleton in Hin. subst x.
      apply get_none_not_key in G. contradiction.
    + apply NoDup_singleton.
Qed.

Lemma keys_delete_sub k k' m : k' ∈ JSMap.keys (JSMap.delete k m) -> k' ∈ JSMap.keys m.
Proof.
  induction m as [|[k0 v0] m IH]; simpl; [auto|].
  destruct (String.eqb k k0); simpl.
  - intros H. apply elem_of_cons. right. auto.
  - rewrite !elem_of_cons. intros [->|H]; auto.
Qed.

Lemma wf_delete k m : JSMap.wf m -> JSMap.wf (JSMap.delete k m).
Proof.
  unfold JSMap.wf. induction m as [|[k0 v0] m IH]; simpl; [auto|].
  rewrite NoDup_cons. intros [Hnin Hnd].
  destruct (String.eqb k k0); simpl; [auto|].
  apply NoDup_cons. split; [|auto].
  intros Hin. apply Hnin. eapply keys_delete_sub. exact Hin.
Qed.

Lemma count_zero k m : JSMap.get k m = None -> JSMap.count k m = 0%nat.
Proof.
  induction m as [|[k' v'] m IH]; simpl; [reflexivity|].
  destruct (String.eqb k k'); [discriminate|]. auto.
Qed.

Lemma count_app k m m' :
  JSMap.count k (m ++ m') = (JSMap.count k m + JSMap.count k m')%nat.
Proof.
  induction m as [|[k' v'] m IH]; simpl; [reflexivity|]. rewrite IH. lia.
Qed.

Lemma count_wf_present k v0 m :
  JSMap.wf m -> JSMap.get k m = Some v0 -> JSMap.count k m = 1%nat.
Proof.
  unfold JSMap.wf. induction m as [|[k' v'] m IH]; simpl; [discriminate|].
  rewrite NoDup_cons. intros [Hnin Hnd].
  destruct (String.eqb k k') eqn:E.
  - intros _. apply String.eqb_eq in E. subst k'.
    rewrite (count_zero k m) by (now apply get_none_not_key). reflexivity.
  - intros G. now rewrite (IH Hnd G).
Qed.

(** After [set] one entry stands under the key. *)
Lemma count_set k v m : JSMap.wf m -> JSMap.count k (JSMap.set k v m) = 1%nat.
Proof.
  intros Hwf. eapply count_wf_present.
  - now apply wf_set.
  - apply get_set_same.
Qed.

End MapFacts.

(** ** Running statements *)

Lemma appendCalls_nil s : appendCalls [] s = s.
Proof. destruct s. unfold appendCalls. simpl. now rewrite app_nil_r. Qed.

Lemma appendCalls_app cs1 cs2 s :
  appendCalls cs2 (appendCalls cs1 s) = appendCalls (cs1 ++ cs2) s.
Proof. unfold appendCalls. simpl. now rewrite app_assoc. Qed.

Lemma logCall_appendCalls c s : logCall c s = appendCalls [c] s.
Proof. reflexivity. Qed.

Lemma write_accepted res chunk s :
  faulty s !! res = None ->
  write res chunk s = (Normal tt, appendCalls [Write res chunk] s).
Proof. intros H. unfold write. now rewrite H. Qed.

Lemma write_raises res chunk s e :
  faulty s !! res = Some e -> write res chunk s = (Throw e, s).
Proof. intros H. unfold write. now rewrite H. Qed.

Lemma write_clients res chunk s : clients (write res chunk s).2 = clients s.
Proof. unfold write. now destruct (faulty s !! res). Qed.

Lemma sendToClient_absent clientId data s :
  JSMap.get clientId (clients s) = None ->
  sendToClient clientId data s = (Normal tt, s).
Proof. intros H. unfold sendToClient, bind, gets, ret. now rewrite H. Qed.

Lemma sendToClient_present clientId data s client :
  JSMap.get clientId (clients s) = Some client ->
  sendToClient clientId data s = write (SSEClient.response client) (frame data) s.
Proof. intros H. unfold sendToClient, bind, gets. now rewrite H. Qed.

Lemma forEach_write_clients data entries s :
  clients (forEach entries
             (fun client => write (SSEClient.response client) (frame data)) s).2
  = clients s.
Proof.
  revert s. induction entries as [|[k c] rest IH]; intros s; simpl; [reflexivity|].
  unfold bind. unfold write at 1.
  destruct (faulty s !! SSEClient.response c); simpl; [reflexivity|].
  now rewrite IH.
Qed.

(** When every response accepts, [forEach] performs the writes in order. *)
Lemma forEach_accepting data entries s :
  accepting s entries ->
  forEach entries (fun client => write (SSEClient.response client) (frame data)) s
  = (Normal tt, appendCalls (broadcastWrites data entries) s).
Proof.
  revert s. induction entries as [|[k c] rest IH]; intros s Hacc; simpl.
  - unfold ret. now rewrite appendCalls_nil.
  - apply Forall_cons in Hacc as [Hc Hrest]. simpl in Hc.
    unfold bind. rewrite (write_accepted _ _ _ Hc).
    rewrite IH by exact Hrest. now rewrite appendCalls_app.
Qed.

(** The first response that raises ends the iteration there. *)
Lemma forEach_raises data pre k c post s e :
  accepting s pre ->
  faulty s !! SSEClient.response c = Some e ->
  forEach (pre ++ (k, c) :: post)
    (fun client => write (SSEClient.response client) (frame data)) s
  = (Throw e, appendCalls (broadcastWrites data pre) s).
Proof.
  revert s. induction pre as [|[k' c'] pre IH]; intros s Hacc Hc; simpl.
  - unfold bind. rewrite (write_raises _ _ _ _ Hc). now rewrite appendCalls_nil.
  - apply Forall_cons in Hacc as [Hc' Hpre]. simpl in Hc'.
    unfold bind. rewrite (write_accepted _ _ _ Hc').
    rewrite IH by assumption. now rewrite appendCalls_app.
Qed.

Lemma written_app res cs1 cs2 :
  written res (cs1 ++ cs2) = written res cs1 ++ written res cs2.
Proof. unfold written. apply omap_app. Qed.

(** ** The registry *)

(** C10. Neither [sendToClient] nor [broadcast] changes the registry,
    whatever the state, the identifier and the payload, and whether or not
    a write raises: a response that fails stays registered. *)
Theorem publish_keeps_registry (s : State) (clientId : string) (data : JSValue) :
  clients (sendToClient clientId data s).2 = clients s /\
  clients (broadcast data s).2 = clients s /\
  (forall client e,
     JSMap.get clientId (clients s) = Some client ->
     faulty s !! SSEClient.response client = Some e ->
     JSMap.get clientId (clients (sendToClient clientId data s).2) = Some client /\
     JSMap.get clientId (clients (broadcast data s).2) = Some client).
Proof.
  assert (Hsend : clients (sendToClient clientId data s).2 = clients s).
  { destruct (JSMap.get clientId (clients s)) as [c|] eqn:G.
    - rewrite (sendToClient_present _ _ _ _ G). apply write_clients.
    - now rewrite (sendToClient_absent _ _ _ G). }
  assert (Hcast : clients (broadcast data s).2 = clients s).
  { unfold broadcast, bind, gets. apply forEach_write_clients. }
  split; [exact Hsend|]. split; [exact Hcast|].
  intros client e G _. now rewrite Hsend, Hcast.
Qed.

(** C4. Publishing to an identifier that has no registered stream
    completes normally and leaves the whole state as it was: nothing is
    written and every registration stays. *)
Theorem publish_unknown_is_noop (s : State) (clientId : string) (data : JSValue) :
  JSMap.get clientId (clients s) = None ->
  sendToClient clientId data s = (Normal tt, s).
Proof. apply sendToClient_absent. Qed.

Lemma publish_unknown_is_noop_witness :
  JSMap.get "unknown" (clients Sample.idle) = None /\
  sendToClient "unknown" (Progress.toObject Sample.tokenStarted) Sample.idle
  = (Normal tt, Sample.idle).
Proof.
  split; [reflexivity|].
  apply (publish_unknown_is_noop Sample.idle "unknown"). reflexivity.
Defined.

Lemma written_other res r chunk :
  r <> res -> written r [Write res chunk] = [].
Proof.
  intros Hne. unfold written. simpl.
  destruct (Nat.eqb res r) eqn:E; [|reflexivity].
  apply Nat.eqb_eq in E. congruence.
Qed.

Lemma written_same res chunk : written res [Write res chunk] = [chunk].
Proof. unfold written. simpl. now rewrite Nat.eqb_refl. Qed.

(** A write touches the output of no other response. *)
Lemma write_written_other res r chunk s :
  r <> res -> written r (calls (write res chunk s).2) = written r (calls s).
Proof.
  intros Hne. unfold write. destruct (faulty s !! res); simpl; [reflexivity|].
  rewrite written_app, (written_other _ _ _ Hne). apply app_nil_r.
Qed.

(** C3. Registering [X] with [h1] and then with [h2] leaves one entry for
    [X], holding [h2]; a publish to [X] is then the write on [h2] and
    changes the output of no other response. *)
Theorem register_twice_last_wins
    (s : State) (X : string) (h1 h2 : Res) (data : JSValue) :
  JSMap.wf (clients s) ->
  let registered :=
    (addClient (SSEClient.mk X h1) ;; addClient (SSEClient.mk X h2)) s in
  registered.1 = Normal tt /\
  JSMap.count X (clients registered.2) = 1%nat /\
  JSMap.get X (clients registered.2) = Some (SSEClient.mk X h2) /\
  sendToClient X data registered.2 = write h2 (frame data) registered.2 /\
  (forall r, r <> h2 ->
     written r (calls (sendToClient X data registered.2).2)
     = written r (calls registered.2)).
Proof.
  intros Hwf. simpl.
  assert (G : JSMap.get X (JSMap.set X (SSEClient.mk X h2)
                             (JSMap.set X (SSEClient.mk X h1) (clients s)))
              = Some (SSEClient.mk X h2)) by apply get_set_same.
  split; [reflexivity|]. split.
  - apply count_set. now apply wf_set.
  - split; [exact G|].
    match goal with
    | |- context [sendToClient X data ?st] =>
        assert (P : sendToClient X data st = write h2 (frame data) st)
          by (now apply (sendToClient_present X data st (SSEClient.mk X h2)))
    end.
    split; [exact P|].
    intros r Hr. rewrite P. now rewrite write_written_other by exact Hr.
Qed.

Lemma register_twice_last_wins_witness :
  JSMap.wf (clients Sample.idle) /\
  JSMap.get "abc"
    (clients ((addClient (SSEClient.mk "abc" 5%nat) ;; addClient (SSEClient.mk "abc" 6%nat))
                Sample.idle).2)
  = Some (SSEClient.mk "abc" 6%nat).
Proof.
  assert (W : JSMap.wf (clients Sample.idle)).
  { unfold JSMap.wf. refine (bool_decide_unpack _ _). vm_compute. exact I. }
  split; [exact W|].
  exact (proj1 (proj2 (proj2
           (register_twice_last_wins Sample.idle "abc" 5%nat 6%nat JNull W)))).
Defined.

(** What a [write] that raises would do to the two operations, which hold
    no exception handler. A publish completes normally when the identifier
    is unknown or the write returns, and raises the error of the write
    otherwise, state untouched. A broadcast completes normally when every
    registered response accepts; otherwise it raises the error of the
    first response that raises, in insertion order, the earlier ones
    written and the later ones not. *)
Lemma publish_raises_what_write_raises
    (s : State) (clientId : string) (data : JSValue) :
  match JSMap.get clientId (clients s) with
  | None => sendToClient clientId data s = (Normal tt, s)
  | Some client =>
      match faulty s !! SSEClient.response client with
      | None =>
          sendToClient clientId data s
          = (Normal tt, appendCalls [Write (SSEClient.response client) (frame data)] s)
      | Some e => sendToClient clientId data s = (Throw e, s)
      end
  end /\
  (accepting s (clients s) ->
   broadcast data s = (Normal tt, appendCalls (broadcastWrites data (clients s)) s)) /\
  (forall pre k client post e,
     clients s = pre ++ (k, client) :: post ->
     accepting s pre ->
     faulty s !! SSEClient.response client = Some e ->
     broadcast data s = (Throw e, appendCalls (broadcastWrites data pre) s)).
Proof.
  split; [|split].
  - destruct (JSMap.get clientId (clients s)) as [c|] eqn:G.
    + rewrite (sendToClient_present _ _ _ _ G).
      destruct (faulty s !! SSEClient.response c) eqn:F.
      * now apply write_raises.
      * now apply write_accepted.
    + now apply sendToClient_absent.
  - intros Hacc. unfold broadcast, bind, gets. now apply forEach_accepting.
  - intros pre k c post e Hsplit Hacc Hc.
    unfold broadcast, bind, gets. rewrite Hsplit. now apply forEach_raises.
Qed.

(** With a stand-in for [abc] whose [write] raises, both operations raise
    to their caller. *)
Example publish_raises_with_raising_write :
  sendToClient "abc" (Progress.toObject Sample.tokenStarted) Sample.raisingWrite
  = (Throw (Error "write EPIPE"), Sample.raisingWrite) /\
  broadcast (Progress.toObject Sample.tokenStarted) Sample.raisingWrite
  = (Throw (Error "write EPIPE"), Sample.raisingWrite).
Proof. split; reflexivity. Qed.

Lemma sendToClient_accepted clientId data s client :
  JSMap.get clientId (clients s) = Some client ->
  faulty s !! SSEClient.response client = None ->
  sendToClient clientId data s
  = (Normal tt, appendCalls [Write (SSEClient.response client) (frame data)] s).
Proof.
  intros G F. rewrite (sendToClient_present _ _ _ _ G). now apply write_accepted.
Qed.

Lemma written_broadcastWrites_other data entries r :
  Forall (fun kv => SSEClient.response kv.2 <> r) entries ->
  written r (broadcastWrites data entries) = [].
Proof.
  induction 1 as [|[k c] rest Hne _ IH]; [reflexivity|].
  change (broadcastWrites data ((k, c) :: rest))
    with ([Write (SSEClient.response c) (frame data)] ++ broadcastWrites data rest).
  rewrite written_app, IH, written_other; [reflexivity|].
  simpl in Hne. congruence.
Qed.

(** C5. With exactly the registrations [A], [B] and [C], whose responses
    accept writes, a broadcast writes the frame of the event once to each of
    the three responses, oldest registration first, makes no other call, and
    so leaves the output of every other response as it was. *)
Theorem broadcast_reaches_all
    (s : State) (data : JSValue) (A B C : string) (a b c : SSEClient.t) :
  clients s = [(A, a); (B, b); (C, c)] ->
  accepting s (clients s) ->
  broadcast data s
  = (Normal tt,
     appendCalls [Write (SSEClient.response a) (frame data);
                  Write (SSEClient.response b) (frame data);
                  Write (SSEClient.response c) (frame data)] s) /\
  (forall r,
     r <> SSEClient.response a -> r <> SSEClient.response b ->
     r <> SSEClient.response c ->
     written r (calls (broadcast data s).2) = written r (calls s)).
Proof.
  intros Hreg Hacc.
  assert (Hrun : broadcast data s
                 = (Normal tt, appendCalls (broadcastWrites data (clients s)) s)).
  { unfold broadcast, bind, gets. now apply forEach_accepting. }
  split.
  - rewrite Hrun, Hreg. reflexivity.
  - intros r Ha Hb Hc. rewrite Hrun. simpl. rewrite written_app.
    rewrite written_broadcastWrites_other; [apply app_nil_r|].
    rewrite Hreg. repeat constructor; simpl; congruence.
Qed.

Lemma broadcast_reaches_all_witness :
  accepting Sample.three (clients Sample.three) /\
  broadcast (Progress.toObject Sample.tokenStarted) Sample.three
  = (Normal tt,
     appendCalls [Write 1%nat (frame (Progress.toObject Sample.tokenStarted));
                  Write 2%nat (frame (Progress.toObject Sample.tokenStarted));
                  Write 3%nat (frame (Progress.toObject Sample.tokenStarted))]
       Sample.three).
Proof.
  assert (Acc : accepting Sample.three (clients Sample.three)).
  { unfold accepting. simpl. repeat constructor. }
  split; [exact Acc|].
  exact (proj1 (broadcast_reaches_all Sample.three
                  (Progress.toObject Sample.tokenStarted)
                  "abc" "xyz" "pqr" Sample.abc Sample.xyz Sample.pqr
                  eq_refl Acc)).
Defined.

(** A batch published to a registered, accepting stream becomes its frames,
    in the order of the batch. *)
Lemma publishAll_accepted clientId client updates s :
  JSMap.get clientId (clients s) = Some client ->
  faulty s !! SSEClient.response client = None ->
  publishAll clientId updates s
  = (Normal tt,
     appendCalls
       (map (fun u => Write (SSEClient.response client) (frame (Progress.toObject u)))
            updates) s).
Proof.
  revert s. induction updates as [|u rest IH]; intros s G F; simpl.
  - unfold ret. now rewrite appendCalls_nil.
  - unfold bind, Progress.sendProgressUpdate.
    rewrite (sendToClient_accepted _ _ _ _ G F).
    rewrite IH by assumption. now rewrite appendCalls_app.
Qed.

(** C8. Three events published to one registered identifier, one call after
    the other, all complete normally and their frames follow what the
    stream already carried, in the order of the calls. *)
Theorem publish_order_preserved
    (s : State) (clientId : string) (client : SSEClient.t)
    (e1 e2 e3 : Progress.ProgressUpdate) :
  JSMap.get clientId (clients s) = Some client ->
  faulty s !! SSEClient.response client = None ->
  let run :=
    (Progress.sendProgressUpdate clientId e1 ;;
     Progress.sendProgressUpdate clientId e2 ;;
     Progress.sendProgressUpdate clientId e3) s in
  run.1 = Normal tt /\
  written (SSEClient.response client) (calls run.2)
  = written (SSEClient.response client) (calls s)
    ++ [frame (Progress.toObject e1);
        frame (Progress.toObject e2);
        frame (Progress.toObject e3)].
Proof.
  intros G F. cbv zeta.
  pose proof (publishAll_accepted clientId client [e1; e2; e3] s G F) as H.
  simpl in H. unfold bind at 3 in H. unfold ret in H.
  assert (E : (Progress.sendProgressUpdate clientId e1 ;;
               Progress.sendProgressUpdate clientId e2 ;;
               Progress.sendProgressUpdate clientId e3) s
              = (Normal tt,
                 appendCalls
                   [Write (SSEClient.response client) (frame (Progress.toObject e1));
                    Write (SSEClient.response client) (frame (Progress.toObject e2));
                    Write (SSEClient.response client) (frame (Progress.toObject e3))] s)).
  { rewrite <- H. unfold bind.
    destruct (Progress.sendProgressUpdate clientId e1 s) as [[[]|x] s1]; [|reflexivity].
    destruct (Progress.sendProgressUpdate clientId e2 s1) as [[[]|x] s2]; [|reflexivity].
    destruct (Progress.sendProgressUpdate clientId e3 s2) as [[[]|x] s3]; reflexivity. }
  rewrite E. split; [reflexivity|].
  simpl. rewrite written_app. f_equal.
  unfold written. simpl. now rewrite Nat.eqb_refl.
Qed.

Lemma publish_order_preserved_witness :
  written 1%nat
    (calls ((Progress.sendProgressUpdate "abc" Sample.tokenStarted ;;
             Progress.sendProgressUpdate "abc" Sample.tokenBuilding ;;
             Progress.sendProgressUpdate "abc" Sample.tokenCompleted) Sample.idle).2)
  = written 1%nat (calls Sample.idle)
    ++ [frame (Progress.toObject Sample.tokenStarted);
        frame (Progress.toObject Sample.tokenBuilding);
        frame (Progress.toObject Sample.tokenCompleted)].
Proof.
  exact (proj2 (publish_order_preserved Sample.idle "abc" Sample.abc
                  Sample.tokenStarted Sample.tokenBuilding Sample.tokenCompleted
                  eq_refl eq_refl)).
Defined.

Lemma get_some_elem {V} (k : string) (v : V) (m : JSMap.t V) :
  JSMap.get k m = Some v -> (k, v) ∈ m.
Proof.
  induction m as [|[k' v'] m IH]; simpl; [discriminate|].
  destruct (String.eqb k k') eqn:E.
  - apply String.eqb_eq in E. subst k'. intros [= ->]. apply elem_of_cons. now left.
  - intros H. apply elem_of_cons. right. auto.
Qed.

Lemma accepting_get s k client :
  accepting s (clients s) ->
  JSMap.get k (clients s) = Some client ->
  faulty s !! SSEClient.response client = None.
Proof.
  intros Hacc G. unfold accepting in Hacc. rewrite Forall_forall in Hacc.
  exact (Hacc (k, client) (get_some_elem _ _ _ G)).
Qed.



Lemma framesDue_cons m h k u rest :
  framesDue m h ((k, u) :: rest)
  = match JSMap.get k m with
    | Some client =>
        if Nat.eqb (SSEClient.response client) h
        then [frame (Progress.toObject u)] else []
    | None => []
    end ++ framesDue m h rest.
Proof.
  unfold framesDue. simpl. destruct (JSMap.get k m) as [client|]; [|reflexivity].
  destruct (Nat.eqb (SSEClient.response client) h); reflexivity.
Qed.

(** Publishes of several producers to several identifiers, interleaved in
    any way: while the registered responses accept, every response receives
    the frames due to it in the order of the calls. *)
Lemma publishSeq_accepting ps s :
  accepting s (clients s) ->
  exists s',
    publishSeq ps s = (Normal tt, s') /\
    clients s' = clients s /\ faulty s' = faulty s /\
    forall h, written h (calls s') = written h (calls s) ++ framesDue (clients s) h ps.
Proof.
  revert s. induction ps as [|[k u] rest IH]; intros s Hacc.
  - exists s. simpl. unfold ret. repeat split; auto. intros h.
    unfold framesDue. simpl. now rewrite app_nil_r.
  - cbn [publishSeq]. unfold bind, Progress.sendProgressUpdate.
    destruct (JSMap.get k (clients s)) as [client|] eqn:G.
    + pose proof (accepting_get s k client Hacc G) as F.
      rewrite (sendToClient_accepted _ _ _ _ G F).
      destruct (IH (appendCalls [Write (SSEClient.response client)
                                   (frame (Progress.toObject u))] s) Hacc)
        as (s' & Hrun & Hc & Hf & Hw).
      exists s'. split; [exact Hrun|]. split; [exact Hc|]. split; [exact Hf|].
      intros h. rewrite Hw, framesDue_cons, G.
      change (clients (appendCalls
                         [Write (SSEClient.response client)
                            (frame (Progress.toObject u))] s)) with (clients s).
      change (calls (appendCalls
                       [Write (SSEClient.response client)
                          (frame (Progress.toObject u))] s))
        with (calls s ++ [Write (SSEClient.response client)
                            (frame (Progress.toObject u))]).
      rewrite written_app, <- app_assoc. f_equal. f_equal.
      unfold written. simpl.
      destruct (Nat.eqb (SSEClient.response client) h); reflexivity.
    + rewrite (sendToClient_absent _ _ _ G).
      destruct (IH s Hacc) as (s' & Hrun & Hc & Hf & Hw).
      exists s'. split; [exact Hrun|]. split; [exact Hc|]. split; [exact Hf|].
      intros h. now rewrite Hw, framesDue_cons, G.
Qed.

(** ** The registry stays a map *)

Lemma addClient_wf client s :
  JSMap.wf (clients s) -> JSMap.wf (clients (addClient client s).2).
Proof. simpl. apply wf_set. Qed.

Lemma removeClient_wf clientId s :
  JSMap.wf (clients s) -> JSMap.wf (clients (removeClient clientId s).2).
Proof. simpl. apply wf_delete. Qed.

Lemma sendToClient_wf clientId data s :
  JSMap.wf (clients s) -> JSMap.wf (clients (sendToClient clientId data s).2).
Proof.
  intros Hwf. destruct (JSMap.get clientId (clients s)) as [c|] eqn:G.
  - rewrite (sendToClient_present _ _ _ _ G). now rewrite write_clients.
  - now rewrite (sendToClient_absent _ _ _ G).
Qed.

Lemma broadcast_wf data s :
  JSMap.wf (clients s) -> JSMap.wf (clients (broadcast data s).2).
Proof.
  intros Hwf. unfold broadcast, bind, gets. simpl. now rewrite forEach_write_clients.
Qed.

Lemma runListeners_wf req ls s :
  JSMap.wf (clients s) -> JSMap.wf (clients (runListeners req ls s).2).
Proof.
  revert s. induction ls as [|[r l] rest IH]; intros s Hwf; simpl; [exact Hwf|].
  unfold bind. destruct (Nat.eqb r req).
  - destruct l as [k]. simpl. unfold removeClient, modify. apply IH. simpl.
    now apply wf_delete.
  - unfold ret. now apply IH.
Qed.

Lemma emitClose_wf req s :
  JSMap.wf (clients s) -> JSMap.wf (clients (emitClose req s).2).
Proof. intros Hwf. unfold emitClose, bind, gets. now apply runListeners_wf. Qed.

(** ** Statements that keep the registry *)

Lemma keeps_ret {A} (a : A) : keepsClients (ret a).
Proof. intros s. reflexivity. Qed.

Lemma keeps_raise {A} (e : Exn) : keepsClients (@raise A e).
Proof. intros s. reflexivity. Qed.

Lemma keeps_bind {A B} (m : M A) (k : A -> M B) :
  keepsClients m -> (forall a, keepsClients (k a)) -> keepsClients (bind m k).
Proof.
  intros Hm Hk s. unfold bind. specialize (Hm s).
  destruct (m s) as [[a|e] s1]; simpl in *; [|exact Hm].
  now rewrite Hk.
Qed.

Lemma keeps_tryCatch {A} (m : M A) (h : Exn -> M A) :
  keepsClients m -> (forall e, keepsClients (h e)) -> keepsClients (tryCatch m h).
Proof.
  intros Hm Hh s. unfold tryCatch. specialize (Hm s).
  destruct (m s) as [[a|e] s1]; simpl in *; [exact Hm|].
  now rewrite Hh.
Qed.

Lemma keeps_write res chunk : keepsClients (write res chunk).
Proof. intros s. apply write_clients. Qed.

Lemma keeps_respond res code body : keepsClients (respond res code body).
Proof. intros s. reflexivity. Qed.

Lemma keeps_sendToClient clientId data : keepsClients (sendToClient clientId data).
Proof.
  intros s. destruct (JSMap.get clientId (clients s)) as [c|] eqn:G.
  - rewrite (sendToClient_present _ _ _ _ G). apply write_clients.
  - now rewrite (sendToClient_absent _ _ _ G).
Qed.

Lemma keeps_publish clientId update : keepsClients (Controllers.publish clientId update).
Proof.
  destruct clientId as [[| | |c| |]|]; try apply keeps_ret.
  apply keeps_sendToClient.
Qed.

Lemma keeps_external {A} (o : Exn + A) : keepsClients (Controllers.external o).
Proof. destruct o; [apply keeps_raise|apply keeps_ret]. Qed.

Lemma keeps_member o k : keepsClients (Controllers.member o k).
Proof. destruct o as [[| | | | |]|]; first [apply keeps_raise|apply keeps_ret]. Qed.

Lemma keeps_getWalletKeypair o : keepsClients (Controllers.getWalletKeypair o).
Proof.
  apply keeps_tryCatch; [apply keeps_external|]. intros e. apply keeps_raise.
Qed.

Create HintDb keeps.
#[local] Hint Resolve keeps_ret keeps_raise keeps_write keeps_respond
  keeps_sendToClient keeps_publish keeps_external keeps_member
  keeps_getWalletKeypair : keeps.

(** Walks a handler body: sequencing, [try], branches, then the leaves. *)
Ltac keeps_walk :=
  cbv zeta;
  repeat first
    [ solve [auto with keeps]
    | apply keeps_bind; [|intros ?]
    | apply keeps_tryCatch; [|intros ?]
    | match goal with
      | |- keepsClients (if ?b then _ else _) => destruct b
      | |- keepsClients (match ?o with Some _ => _ | None => _ end) => destruct o
      end ].

(** The handlers only publish and respond. *)
Lemma keeps_createToken sdk req res :
  keepsClients (Controllers.createToken sdk req res).
Proof. unfold Controllers.createToken. keeps_walk. Qed.

Lemma keeps_deployCollection sdk req res :
  keepsClients (Controllers.deployCollection sdk req res).
Proof. unfold Controllers.deployCollection. keeps_walk. Qed.

Lemma keeps_mintCollectionNFT sdk req res :
  keepsClients (Controllers.mintCollectionNFT sdk req res).
Proof. unfold Controllers.mintCollectionNFT. keeps_walk. Qed.

(** ** Encoding *)

Lemma append_assoc (a b c : string) : (a +:+ b) +:+ c = a +:+ (b +:+ c).
Proof.
  induction a as [|x a IH]; [reflexivity|].
  change (String x ((a +:+ b) +:+ c) = String x (a +:+ (b +:+ c))).
  now rewrite IH.
Qed.

Lemma append_cons c (a b : string) : String c a +:+ b = String c (a +:+ b).
Proof. reflexivity. Qed.

Lemma append_nil_r (a : string) : a +:+ EmptyString = a.
Proof. induction a as [|c a IH]; [reflexivity|]. rewrite append_cons. now rewrite IH. Qed.

Lemma allPrintable_app a b :
  allPrintable (a +:+ b) = allPrintable a && allPrintable b.
Proof.
  induction a as [|c a IH]; [reflexivity|].
  rewrite append_cons. simpl. rewrite IH. now rewrite andb_assoc.
Qed.

Lemma allPrintable_quoteChar c : allPrintable (quoteChar c) = true.
Proof. destruct c as [[] [] [] [] [] [] [] []]; reflexivity. Qed.

Lemma allPrintable_quoteJSONString str : allPrintable (quoteJSONString str) = true.
Proof.
  unfold quoteJSONString. rewrite !allPrintable_app.
  assert (H : allPrintable (quoteBody str) = true).
  { induction str as [|c rest IH]; [reflexivity|]. simpl.
    now rewrite allPrintable_app, allPrintable_quoteChar, IH. }
  now rewrite H.
Qed.

Lemma allPrintable_uint d : allPrintable (NilEmpty.string_of_uint d) = true.
Proof. induction d; simpl; auto. Qed.

Lemma allPrintable_numberToString n : allPrintable (numberToString n) = true.
Proof.
  unfold numberToString. destruct (Z.to_int n); simpl; apply allPrintable_uint.
Qed.

Lemma allPrintable_commaRest parts :
  Forall (fun p => allPrintable p = true) parts -> allPrintable (commaRest parts) = true.
Proof.
  induction 1 as [|p rest Hp _ IH]; [reflexivity|]. simpl.
  now rewrite !allPrintable_app, Hp, IH.
Qed.

Lemma allPrintable_commaJoin parts :
  Forall (fun p => allPrintable p = true) parts -> allPrintable (commaJoin parts) = true.
Proof.
  destruct 1 as [|p rest Hp Hrest]; [reflexivity|]. simpl.
  now rewrite allPrintable_app, Hp, allPrintable_commaRest.
Qed.

(** Induction over a JSON document, through its arrays and objects. *)
Fixpoint JSValue_each (P : JSValue -> Prop)
    (Hnull : P JNull) (Hbool : forall b, P (JBool b)) (Hnum : forall n, P (JNum n))
    (Hstr : forall str, P (JStr str))
    (Harr : forall items, Forall P items -> P (JArr items))
    (Hobj : forall members, Forall (fun kv => P kv.2) members -> P (JObj members))
    (v : JSValue) : P v :=
  match v with
  | JNull => Hnull
  | JBool b => Hbool b
  | JNum n => Hnum n
  | JStr str => Hstr str
  | JArr items =>
      Harr items
        ((fix each (l : list JSValue) : Forall P l :=
            match l with
            | [] => Forall_nil_2 P
            | x :: rest =>
                Forall_cons_2 P x rest
                  (JSValue_each P Hnull Hbool Hnum Hstr Harr Hobj x) (each rest)
            end) items)
  | JObj members =>
      Hobj members
        ((fix each (l : list (string * JSValue)) : Forall (fun kv => P kv.2) l :=
            match l with
            | [] => Forall_nil_2 _
            | kv :: rest =>
                Forall_cons_2 (fun kv => P kv.2) kv rest
                  (JSValue_each P Hnull Hbool Hnum Hstr Harr Hobj kv.2) (each rest)
            end) members)
  end.

Lemma allPrintable_stringify data : allPrintable (stringify data) = true.
Proof.
  induction data using JSValue_each.
  - reflexivity.
  - now destruct b.
  - apply allPrintable_numberToString.
  - apply allPrintable_quoteJSONString.
  - simpl. rewrite !allPrintable_app, allPrintable_commaJoin; [reflexivity|].
    apply Forall_fmap. exact H.
  - simpl. rewrite !allPrintable_app, allPrintable_commaJoin; [reflexivity|].
    apply Forall_fmap. eapply Forall_impl; [exact H|]. intros [k v] Hv.
    unfold compose. cbn [fst snd] in *.
    now rewrite !allPrintable_app, allPrintable_quoteJSONString, Hv.
Qed.

Lemma readString_quoteChar c r :
  readString (quoteChar c +:+ r) = pushChar c (readString r).
Proof. destruct c as [[] [] [] [] [] [] [] []]; reflexivity. Qed.

(** What [quoteBody] wrote is read back as it was, up to the quote that
    closes it. *)
Lemma readString_quoteBody str rest :
  readString (quoteBody str +:+ dquote +:+ rest) = Some (str, rest).
Proof.
  induction str as [|c str IH]; [reflexivity|].
  simpl quoteBody. rewrite append_assoc, readString_quoteChar, IH. reflexivity.
Qed.

Lemma connectedFrame_split clientId :
  connectedFrame clientId
  = ("data: {" +:+ quoted "type" +:+ ":" +:+ quoted "connected" +:+ ","
     +:+ quoted "clientId" +:+ ":" +:+ dquote)
    +:+ (quoteBody clientId +:+ dquote +:+ "}" +:+ newline +:+ newline).
Proof.
  unfold connectedFrame, quoteJSONString. now rewrite !append_assoc.
Qed.

Lemma commaRest_app a b : commaRest (a ++ b) = commaRest a +:+ commaRest b.
Proof.
  induction a as [|p a IH]; [reflexivity|].
  simpl. rewrite IH. now rewrite !append_assoc.
Qed.

Lemma commaRest_optional k (v : option JSValue) :
  commaRest
    (map (fun kv : string * JSValue => quoteJSONString kv.1 +:+ ":" +:+ stringify kv.2)
       (Progress.optionalMember k v))
  = memberText k (stringify <$> v) \/ quoteBody k <> k.
Proof.
  destruct (decide (quoteBody k = k)) as [Hk|Hk]; [left|now right].
  destruct v as [v|]; [|reflexivity]. simpl.
  unfold quoteJSONString, quoted. rewrite Hk, append_nil_r. now rewrite !append_assoc.
Qed.

(** The frame of an event: its head, fixed by type and status, and its
    tail of optional members. *)
Lemma frame_decompose u :
  frame (Progress.toObject u)
  = frameHead (Progress.type u) (Progress.status u) +:+ frameTail u.
Proof.
  destruct u as [t st stp pc msg er]. unfold frame, Progress.toObject, frameTail.
  cbn [Progress.type Progress.status Progress.step Progress.progress Progress.message
       Progress.error stringify map app commaJoin commaRest fst snd].
  rewrite !map_app, !commaRest_app.
  destruct (commaRest_optional "step" (JStr <$> stp)) as [-> |H]; [|now destruct H].
  destruct (commaRest_optional "progress" (JNum <$> pc)) as [-> |H]; [|now destruct H].
  destruct (commaRest_optional "message" (JStr <$> msg)) as [-> |H]; [|now destruct H].
  destruct (commaRest_optional "error" (JStr <$> er)) as [-> |H]; [|now destruct H].
  assert (Ht : quoteJSONString (Progress.typeName t) = quoted (Progress.typeName t))
    by now destruct t.
  assert (Hst : quoteJSONString (Progress.statusName st) = quoted (Progress.statusName st))
    by now destruct st.
  unfold frameHead. cbn [stringify]. rewrite Ht, Hst.
  change (quoteJSONString "type") with (quoted "type").
  change (quoteJSONString "status") with (quoted "status").
  destruct stp, pc, msg, er; cbn [fmap option_fmap option_map memberText stringify];
    now rewrite !append_assoc.
Qed.

Lemma endsNumber_member k o R : endsNumber R -> endsNumber (memberText k o +:+ R).
Proof. destruct o; [intros _; split; reflexivity|auto]. Qed.

Lemma endsNumber_close : endsNumber ("}" +:+ newline +:+ newline).
Proof. split; reflexivity. Qed.

(** ** Reading back *)

Lemma stripPrefix_app p s : stripPrefix p (p +:+ s) = Some s.
Proof.
  induction p as [|a p IH]; [reflexivity|].
  rewrite append_cons. simpl. now rewrite Ascii.eqb_refl.
Qed.

Lemma leadingDigits_uint d r :
  endsNumber r ->
  leadingDigits (NilEmpty.string_of_uint d +:+ r) = (NilEmpty.string_of_uint d, r).
Proof.
  intros Hr. induction d; cbn [NilEmpty.string_of_uint]; rewrite ?append_cons;
    try (cbn [leadingDigits]; rewrite IHd; reflexivity).
  change (EmptyString +:+ r) with r.
  destruct r as [|c r]; [reflexivity|]. destruct Hr as [Hd _].
  cbn [leadingDigits]. now rewrite Hd.
Qed.

Lemma readClock_uint p : readClock (NilEmpty.string_of_uint (Pos.to_uint p)) = Some (Npos p).
Proof.
  unfold readClock. rewrite NilEmpty.usu. simpl. f_equal. apply Unsigned.of_to.
Qed.

Lemma uint_head p :
  exists c rest,
    NilEmpty.string_of_uint (Pos.to_uint p) = String c rest /\
    isDigit c = true.
Proof.
  pose proof (Unsigned.to_uint_nonnil p) as Hn.
  destruct (Pos.to_uint p); [now destruct Hn|..]; simpl; eauto.
Qed.

Lemma readInteger_digits d r n :
  endsNumber r ->
  (exists c rest, NilEmpty.string_of_uint d = String c rest /\ isDigit c = true) ->
  readClock (NilEmpty.string_of_uint d) = Some n ->
  readInteger (NilEmpty.string_of_uint d +:+ r) = Some (Z.of_N n, r) /\
  readInteger (String "-" (NilEmpty.string_of_uint d) +:+ r) = Some (- Z.of_N n, r).
Proof.
  intros Hr (c & rest & E & Hc) Hn.
  assert (H45 : (N_of_ascii c =? 45)%N = false).
  { unfold isDigit in Hc. apply andb_true_iff in Hc as [Hlo _].
    apply N.leb_le in Hlo. apply N.eqb_neq. lia. }
  assert (Hne : String.eqb (NilEmpty.string_of_uint d) EmptyString = false)
    by now rewrite E.
  split.
  - unfold readInteger. rewrite E, append_cons, H45. cbv zeta.
    rewrite <- append_cons, <- E, (leadingDigits_uint _ _ Hr). cbn [fst snd].
    now rewrite Hne, Hn.
  - unfold readInteger. rewrite append_cons.
    change (N_of_ascii "-" =? 45)%N with true. cbv beta iota zeta.
    rewrite (leadingDigits_uint _ _ Hr). cbn [fst snd].
    now rewrite Hne, Hn.
Qed.

Lemma readInteger_numberToString n r :
  endsNumber r -> readInteger (numberToString n +:+ r) = Some (n, r).
Proof.
  intros Hr. unfold numberToString.
  destruct n as [|p|p]; cbn [Z.to_int NilEmpty.string_of_int].
  - apply (readInteger_digits (Decimal.D0 Decimal.Nil) r 0%N Hr); [|reflexivity].
    now exists "0"%char, EmptyString.
  - apply (readInteger_digits (Pos.to_uint p) r (Npos p) Hr);
      [apply uint_head|apply readClock_uint].
  - apply (readInteger_digits (Pos.to_uint p) r (Npos p) Hr);
      [apply uint_head|apply readClock_uint].
Qed.

Lemma readTextMember_present k x R :
  readTextMember k (memberText k (quoteJSONString <$> Some x) +:+ R) = Some (Some x, R).
Proof.
  unfold readTextMember. cbn [fmap option_fmap option_map memberText].
  unfold quoteJSONString.
  replace (("," +:+ quoted k +:+ ":" +:+ dquote +:+ quoteBody x +:+ dquote) +:+ R)
    with (("," +:+ quoted k +:+ ":" +:+ dquote) +:+ quoteBody x +:+ dquote +:+ R)
    by now rewrite !append_assoc.
  now rewrite stripPrefix_app, readString_quoteBody.
Qed.

Lemma readTextMember_absent k R :
  stripPrefix ("," +:+ quoted k +:+ ":" +:+ dquote) R = None ->
  readTextMember k (memberText k (quoteJSONString <$> None) +:+ R) = Some (None, R).
Proof.
  intros H. unfold readTextMember. cbn [fmap option_fmap option_map memberText].
  change (EmptyString +:+ R) with R. now rewrite H.
Qed.

Lemma readNumberMember_present k n R :
  endsNumber R ->
  readNumberMember k (memberText k (numberToString <$> Some n) +:+ R) = Some (Some n, R).
Proof.
  intros HR. unfold readNumberMember. cbn [fmap option_fmap option_map memberText].
  replace (("," +:+ quoted k +:+ ":" +:+ numberToString n) +:+ R)
    with (("," +:+ quoted k +:+ ":") +:+ numberToString n +:+ R)
    by now rewrite !append_assoc.
  now rewrite stripPrefix_app, readInteger_numberToString.
Qed.

Lemma readNumberMember_absent k R :
  stripPrefix ("," +:+ quoted k +:+ ":") R = None ->
  readNumberMember k (memberText k (numberToString <$> None) +:+ R) = Some (None, R).
Proof.
  intros H. unfold readNumberMember. cbn [fmap option_fmap option_map memberText].
  change (EmptyString +:+ R) with R. now rewrite H.
Qed.

Lemma readHead_frameHead t st R : readHead (frameHead t st +:+ R) = Some (t, st, R).
Proof. destruct t, st; reflexivity. Qed.

(** The text that opens a member is not the text that opens a later
    member, nor the brace that closes the object. *)
Ltac elsewhere :=
  repeat match goal with
         | |- context [fmap _ ?o] => is_var o; destruct o
         end;
  reflexivity.

(** Reading the frame of an event gives the event back. *)
Lemma readEvent_frame u : readEvent (frame (Progress.toObject u)) = Some u.
Proof.
  rewrite frame_decompose. unfold readEvent.
  rewrite readHead_frameHead. cbn [mbind option_bind].
  destruct u as [t st stp pc msg er]. unfold frameTail.
  cbn [Progress.type Progress.status Progress.step Progress.progress Progress.message
       Progress.error].
  destruct stp;
    [rewrite readTextMember_present|rewrite readTextMember_absent by elsewhere];
    cbn [mbind option_bind].
  all: destruct pc;
    [rewrite readNumberMember_present
       by apply endsNumber_member, endsNumber_member, endsNumber_close
    |rewrite readNumberMember_absent by elsewhere];
    cbn [mbind option_bind].
  all: destruct msg;
    [rewrite readTextMember_present|rewrite readTextMember_absent by elsewhere];
    cbn [mbind option_bind].
  all: destruct er;
    [rewrite readTextMember_present|rewrite readTextMember_absent by elsewhere];
    cbn [mbind option_bind].
  all: reflexivity.
Qed.

Lemma readConnected_frame clientId : readConnected (connectedFrame clientId) = Some clientId.
Proof.
  unfold readConnected. rewrite connectedFrame_split, stripPrefix_app.
  cbn [mbind option_bind]. rewrite readString_quoteBody. reflexivity.
Qed.

(** ** The streaming endpoint *)

Lemma frame_connected clientId :
  frame (JObj [("type", JStr "connected"); ("clientId", JStr clientId)])
  = connectedFrame clientId.
Proof.
  unfold frame, connectedFrame, quoted, quoteJSONString. simpl.
  unfold quoteJSONString. simpl. now rewrite !append_assoc.
Qed.

(** The encoding at work: an event of a handler, and an identifier that
    holds a double quote. *)
Example stringify_stage :
  stringify (Progress.toObject Sample.tokenBuilding)
  = "{" +:+ quoted "type" +:+ ":" +:+ quoted "token" +:+ ","
    +:+ quoted "status" +:+ ":" +:+ quoted "progress" +:+ ","
    +:+ quoted "step" +:+ ":" +:+ quoted "building" +:+ ","
    +:+ quoted "progress" +:+ ":60,"
    +:+ quoted "message" +:+ ":" +:+ quoted "Building transaction" +:+ "}".
Proof. reflexivity. Qed.

Example connectedFrame_escapes :
  connectedFrame ("a" +:+ dquote +:+ "b")
  = "data: {" +:+ quoted "type" +:+ ":" +:+ quoted "connected" +:+ ","
    +:+ quoted "clientId" +:+ ":" +:+ quoted ("a" +:+ backslash +:+ dquote +:+ "b")
    +:+ "}" +:+ newline +:+ newline.
Proof. reflexivity. Qed.

(** A line feed and another control character in an identifier. *)
Example connectedFrame_escapes_controls :
  connectedFrame ("a" +:+ newline +:+ "b" +:+ String "001"%char EmptyString)
  = "data: {" +:+ quoted "type" +:+ ":" +:+ quoted "connected" +:+ ","
    +:+ quoted "clientId" +:+ ":"
    +:+ quoted ("a" +:+ backslash +:+ "nb" +:+ backslash +:+ "u0001")
    +:+ "}" +:+ newline +:+ newline.
Proof. reflexivity. Qed.

(** A run of the middleware whose response accepts the first frame. *)
Lemma sseMiddleware_accepted req res s :
  faulty s !! res = None ->
  sseMiddleware req res s
  = (Normal tt,
     mkState
       (JSMap.set (resolveClientId req (now s))
          (SSEClient.mk (resolveClientId req (now s)) res) (clients s))
       (listeners s ++ [(ref req, RemoveClientOnClose (resolveClientId req (now s)))])
       (now s) (faulty s)
       (calls s ++ connectionCalls res (resolveClientId req (now s)))).
Proof.
  intros F. unfold sseMiddleware, setHeader, flushHeaders, addClient, onClose.
  unfold bind, modify, gets. simpl. unfold write. simpl. rewrite F.
  unfold withListeners, logCall, connectionCalls. simpl.
  rewrite frame_connected. repeat rewrite <- app_assoc. reflexivity.
Qed.

(** Otherwise the error of the write leaves the middleware, after the
    registration and before the close listener is attached. *)
Lemma sseMiddleware_raises req res s e :
  faulty s !! res = Some e ->
  (sseMiddleware req res s).1 = Throw e /\
  listeners (sseMiddleware req res s).2 = listeners s /\
  JSMap.get (resolveClientId req (now s)) (clients (sseMiddleware req res s).2)
  = Some (SSEClient.mk (resolveClientId req (now s)) res).
Proof.
  intros F. unfold sseMiddleware, setHeader, flushHeaders, addClient, onClose.
  unfold bind, modify, gets. simpl. unfold write. simpl. rewrite F. simpl.
  split; [reflexivity|]. split; [reflexivity|]. apply get_set_same.
Qed.

Lemma sseMiddleware_normal_accepting req res s :
  (sseMiddleware req res s).1 = Normal tt -> faulty s !! res = None.
Proof.
  destruct (faulty s !! res) as [e|] eqn:F; [|reflexivity].
  destruct (sseMiddleware_raises req res s e F) as (H & _ & _). rewrite H. discriminate.
Qed.

Lemma quoteChar_plain c : plainChar c = true -> quoteChar c = String c EmptyString.
Proof.
  unfold plainChar, quoteChar. cbv zeta. intros H.
  apply andb_true_iff in H as [H H92]. apply andb_true_iff in H as [H32 H34].
  apply negb_true_iff in H32, H34, H92.
  rewrite H32, H34, H92.
  apply N.ltb_ge in H32.
  repeat match goal with
         | |- context [N.eqb ?a ?b] =>
             destruct (N.eqb_spec a b); [exfalso; lia|]
         end.
  reflexivity.
Qed.

(** An identifier of plain characters is quoted as it stands. *)
Lemma quoteBody_plain str : allPlain str = true -> quoteBody str = str.
Proof.
  induction str as [|c rest IH]; simpl; [reflexivity|].
  intros H. apply andb_true_iff in H as [Hc Hrest].
  rewrite (quoteChar_plain c Hc), IH by exact Hrest. reflexivity.
Qed.

Lemma sseMiddleware_wf req res s :
  JSMap.wf (clients s) -> JSMap.wf (clients (sseMiddleware req res s).2).
Proof.
  intros Hwf. destruct (faulty s !! res) as [e|] eqn:F.
  - unfold sseMiddleware, setHeader, flushHeaders, addClient, onClose.
    unfold bind, modify, gets. simpl. unfold write. simpl. rewrite F. simpl.
    now apply wf_set.
  - rewrite (sseMiddleware_accepted req res s F). simpl. now apply wf_set.
Qed.

(** C6. On a response that accepts writes and carries no body yet, the
    handler completes normally having set the three headers, flushed them,
    and then written the connected frame, which is the first and only chunk
    of the body. The identifier in that frame is the route parameter when
    there is one, written as JSON writes a string, which for an identifier
    of plain characters is the identifier between quotes. Whatever the
    identifier holds, the chunk is one frame, without a control character
    before the two line feeds that end it, and a reader of the stream
    finds the identifier in it. The stream is registered under it; and
    whenever that registration stands and the response accepts, an event
    published to the identifier is one more chunk: [data: ], its JSON
    encoding, two line feeds; that chunk too is one frame, from which a
    reader gets the event back, member for member. *)
Theorem connection_headers_then_frames (s : State) (req : Request) (res : Res) :
  faulty s !! res = None ->
  written res (calls s) = [] ->
  let clientId := resolveClientId req (now s) in
  let run := sseMiddleware req res s in
  run.1 = Normal tt /\
  calls run.2
  = calls s ++ [SetHeader res "Content-Type" "text/event-stream";
                SetHeader res "Cache-Control" "no-cache";
                SetHeader res "Connection" "keep-alive";
                FlushHeaders res;
                Write res
                  ("data: {" +:+ quoted "type" +:+ ":" +:+ quoted "connected" +:+ ","
                   +:+ quoted "clientId" +:+ ":" +:+ quoteJSONString clientId +:+ "}"
                   +:+ newline +:+ newline)] /\
  written res (calls run.2) = [connectedFrame clientId] /\
  (exists chunk payload,
     written res (calls run.2) = [chunk] /\
     chunk = payload +:+ newline +:+ newline /\
     allPrintable payload = true /\
     readConnected chunk = Some clientId) /\
  (forall p, params req !! "clientId" = Some p -> p <> EmptyString -> clientId = p) /\
  (allPlain clientId = true -> quoteJSONString clientId = quoted clientId) /\
  JSMap.get clientId (clients run.2) = Some (SSEClient.mk clientId res) /\
  (forall (later : State) (update : Progress.ProgressUpdate),
     JSMap.get clientId (clients later) = Some (SSEClient.mk clientId res) ->
     faulty later !! res = None ->
     Progress.sendProgressUpdate clientId update later
     = (Normal tt,
        appendCalls
          [Write res ("data: " +:+ stringify (Progress.toObject update)
                      +:+ newline +:+ newline)] later)) /\
  (forall (later : State) (update : Progress.ProgressUpdate),
     JSMap.get clientId (clients later) = Some (SSEClient.mk clientId res) ->
     faulty later !! res = None ->
     exists chunk payload,
       written res (calls (Progress.sendProgressUpdate clientId update later).2)
       = written res (calls later) ++ [chunk] /\
       chunk = payload +:+ newline +:+ newline /\
       allPrintable payload = true /\
       (safeProgress update -> readEvent chunk = Some update)).
Proof.
  intros F Hfresh. cbv zeta. rewrite (sseMiddleware_accepted req res s F). simpl.
  assert (Hbody : written res (calls s ++ connectionCalls res (resolveClientId req (now s)))
                  = [connectedFrame (resolveClientId req (now s))]).
  { rewrite written_app, Hfresh. unfold written. simpl. now rewrite Nat.eqb_refl. }
  split; [reflexivity|]. split; [reflexivity|].
  split; [exact Hbody|]. split; [|split; [|split; [|split; [|split]]]].
  - exists (connectedFrame (resolveClientId req (now s))),
           ("data: " +:+ stringify (JObj [("type", JStr "connected");
                                          ("clientId", JStr (resolveClientId req (now s)))])).
    split; [exact Hbody|]. split; [|split].
    + rewrite <- frame_connected. unfold frame. now rewrite append_assoc.
    + now rewrite allPrintable_app, allPrintable_stringify.
    + apply readConnected_frame.
  - intros p Hp Hne. unfold resolveClientId. rewrite Hp.
    destruct (String.eqb p EmptyString) eqn:E; [|reflexivity].
    apply String.eqb_eq in E. contradiction.
  - intros Hplain. unfold quoteJSONString, quoted. now rewrite quoteBody_plain.
  - apply get_set_same.
  - intros later update G F'. unfold Progress.sendProgressUpdate.
    now rewrite (sendToClient_accepted _ _ _ _ G F').
  - intros later update G F'. unfold Progress.sendProgressUpdate.
    rewrite (sendToClient_accepted _ _ _ _ G F').
    exists (frame (Progress.toObject update)),
           ("data: " +:+ stringify (Progress.toObject update)).
    split; [|split; [|split]].
    + simpl. rewrite written_app. f_equal. apply written_same.
    + unfold frame. now rewrite append_assoc.
    + now rewrite allPrintable_app, allPrintable_stringify.
    + intros _. apply readEvent_frame.
Qed.

(** Scenario A of the specification. *)
Lemma connection_headers_then_frames_witness :
  let connected := (sseMiddleware Sample.connectAbc 4%nat Sample.idle).2 in
  written 4%nat (calls connected)
  = ["data: {" +:+ quoted "type" +:+ ":" +:+ quoted "connected" +:+ ","
     +:+ quoted "clientId" +:+ ":" +:+ quoted "abc" +:+ "}" +:+ newline +:+ newline] /\
  written 4%nat
    (calls (Progress.sendProgressUpdate "abc" Sample.tokenStarted connected).2)
  = ["data: {" +:+ quoted "type" +:+ ":" +:+ quoted "connected" +:+ ","
     +:+ quoted "clientId" +:+ ":" +:+ quoted "abc" +:+ "}" +:+ newline +:+ newline;
     "data: {" +:+ quoted "type" +:+ ":" +:+ quoted "token" +:+ ","
     +:+ quoted "status" +:+ ":" +:+ quoted "started" +:+ ","
     +:+ quoted "message" +:+ ":" +:+ quoted "Preparing token creation transaction"
     +:+ "}" +:+ newline +:+ newline].
Proof.
  pose proof (connection_headers_then_frames Sample.idle Sample.connectAbc 4%nat
                eq_refl eq_refl) as H.
  cbv zeta in H. destruct H as (_ & _ & Hbody & _ & _ & _ & Hreg & Hlater & _).
  split; [exact Hbody|].
  pose proof (Hlater _ Sample.tokenStarted Hreg eq_refl) as Hpub.
  change (resolveClientId Sample.connectAbc (now Sample.idle)) with "abc" in Hpub.
  rewrite Hpub. reflexivity.
Defined.

(** Whatever happens, the registry holds one entry per identifier. *)
Lemma handle_wf ev s : JSMap.wf (clients s) -> JSMap.wf (clients (handle ev s)).
Proof.
  intros Hwf. destruct ev; simpl.
  - now apply sseMiddleware_wf.
  - now apply emitClose_wf.
  - now rewrite keeps_createToken.
  - now rewrite keeps_deployCollection.
  - now rewrite keeps_mintCollectionNFT.
  - exact Hwf.
Qed.

Lemma reachable_wf evs clock :
  JSMap.wf (clients (foldl (fun s ev => handle ev s) (initial clock) evs)).
Proof.
  assert (H : forall s, JSMap.wf (clients s) ->
                        JSMap.wf (clients (foldl (fun s ev => handle ev s) s evs))).
  { induction evs as [|ev evs IH]; intros s Hwf; simpl; [exact Hwf|].
    apply IH. now apply handle_wf. }
  apply H. apply wf_empty.
Qed.

(** ** Identifiers synthesized from the clock *)

Lemma allDigits_uint d : allDigits (NilEmpty.string_of_uint d) = true.
Proof. induction d; simpl; auto. Qed.

Lemma string_of_uint_empty d : NilEmpty.string_of_uint d = EmptyString -> d = Decimal.Nil.
Proof. destruct d; simpl; [reflexivity|discriminate..]. Qed.

Lemma timestampId_numeric t : numeric (timestampId t) = true.
Proof.
  unfold numeric, timestampId, numberToString.
  destruct t as [|p]; [reflexivity|]. simpl.
  rewrite allDigits_uint, andb_true_r.
  destruct (String.eqb (NilEmpty.string_of_uint (Pos.to_uint p)) EmptyString) eqn:E;
    [|reflexivity].
  apply String.eqb_eq, string_of_uint_empty in E.
  now destruct (Unsigned.to_uint_nonnil p).
Qed.

Lemma quoteChar_digit c : isDigit c = true -> quoteChar c = String c EmptyString.
Proof.
  unfold isDigit, quoteChar. intros H.
  apply andb_true_iff in H as [Hlo Hhi].
  apply N.leb_le in Hlo. apply N.leb_le in Hhi.
  repeat match goal with
         | |- context [N.eqb ?a ?b] =>
             destruct (N.eqb_spec a b); [exfalso; lia|]
         | |- context [N.ltb ?a ?b] =>
             destruct (N.ltb_spec a b); [exfalso; lia|]
         end.
  reflexivity.
Qed.

(** Digits need no escape. *)
Lemma quoteBody_digits str : allDigits str = true -> quoteBody str = str.
Proof.
  induction str as [|c rest IH]; simpl; [reflexivity|].
  intros H. apply andb_true_iff in H as [Hc Hrest].
  rewrite (quoteChar_digit c Hc), IH by exact Hrest. reflexivity.
Qed.

Lemma resolveClientId_absent req t :
  params req !! "clientId" = None \/ params req !! "clientId" = Some EmptyString ->
  resolveClientId req t = timestampId t.
Proof. unfold resolveClientId. now intros [-> | ->]. Qed.

Lemma readClock_timestampId t : readClock (timestampId t) = Some t.
Proof.
  unfold readClock, timestampId, numberToString.
  destruct t as [|p]; [reflexivity|]. simpl.
  rewrite NilEmpty.usu. simpl. f_equal. apply Unsigned.of_to.
Qed.

(** C9. When the route parameter is absent or empty and the response
    accepts writes, the stream is registered under a non-empty string of
    decimal digits which, read as a number, is the clock reading; the
    connected frame carries those digits between plain quotes, and a
    publish to that string is a write to the same response. *)
Theorem anonymous_connection_gets_clock_id
    (s : State) (req : Request) (res : Res) (update : Progress.ProgressUpdate) :
  params req !! "clientId" = None \/ params req !! "clientId" = Some EmptyString ->
  faulty s !! res = None ->
  let clientId := timestampId (now s) in
  let run := sseMiddleware req res s in
  numeric clientId = true /\
  readClock clientId = Some (now s) /\
  run.1 = Normal tt /\
  JSMap.get clientId (clients run.2) = Some (SSEClient.mk clientId res) /\
  last (calls run.2)
  = Some (Write res
            ("data: {" +:+ quoted "type" +:+ ":" +:+ quoted "connected" +:+ ","
             +:+ quoted "clientId" +:+ ":" +:+ quoted clientId +:+ "}"
             +:+ newline +:+ newline)) /\
  Progress.sendProgressUpdate clientId update run.2
  = (Normal tt, appendCalls [Write res (frame (Progress.toObject update))] run.2).
Proof.
  intros Hparam F. cbv zeta.
  pose proof (timestampId_numeric (now s)) as Hnum.
  rewrite (sseMiddleware_accepted req res s F).
  rewrite (resolveClientId_absent req (now s) Hparam). simpl.
  split; [exact Hnum|]. split; [apply readClock_timestampId|].
  split; [reflexivity|]. split; [apply get_set_same|]. split.
  - rewrite last_app. simpl. unfold connectedFrame, quoteJSONString, quoted.
    apply andb_true_iff in Hnum as [_ Hd]. now rewrite (quoteBody_digits _ Hd).
  - unfold Progress.sendProgressUpdate.
    rewrite (sendToClient_accepted _ _ _ (SSEClient.mk (timestampId (now s)) res));
      [reflexivity|apply get_set_same|exact F].
Qed.

(** Scenario B of the specification. *)
Lemma anonymous_connection_gets_clock_id_witness :
  let connected := (sseMiddleware Sample.connectAnonymous 4%nat Sample.idle).2 in
  readClock "1700000000000" = Some 1700000000000%N /\
  JSMap.get "1700000000000" (clients connected)
  = Some (SSEClient.mk "1700000000000" 4%nat) /\
  written 4%nat
    (calls (Progress.sendProgressUpdate "1700000000000" Sample.tokenStarted connected).2)
  = [connectedFrame "1700000000000"; frame (Progress.toObject Sample.tokenStarted)].
Proof.
  pose proof (anonymous_connection_gets_clock_id Sample.idle Sample.connectAnonymous
                4%nat Sample.tokenStarted (or_introl eq_refl) eq_refl) as H.
  cbv zeta in H. destruct H as (_ & Hclock & _ & Hreg & _ & Hpub).
  split; [exact Hclock|]. split; [exact Hreg|].
  change (timestampId (now Sample.idle)) with "1700000000000" in Hpub.
  rewrite Hpub. reflexivity.
Defined.

(** ** Cleanup on close *)

(** Listeners only delete: they complete normally, an absent identifier
    stays absent, and the identifier of a listener of the request is gone
    afterwards. *)
Lemma runListeners_spec req ls :
  forall s,
    (runListeners req ls s).1 = Normal tt /\
    (forall k, JSMap.get k (clients s) = None ->
               JSMap.get k (clients (runListeners req ls s).2) = None) /\
    (forall k, (req, RemoveClientOnClose k) ∈ ls ->
               JSMap.get k (clients (runListeners req ls s).2) = None).
Proof.
  induction ls as [|[r l] rest IH]; intros s.
  - simpl. split; [reflexivity|]. split; [auto|].
    intros k Hin. now apply elem_of_nil in Hin.
  - simpl. unfold bind.
    destruct (Nat.eqb r req) eqn:E.
    + destruct l as [k0]. simpl. unfold removeClient, modify.
      destruct (IH (withClients (JSMap.delete k0) s)) as (Hn & Hkeep & Hdel).
      split; [exact Hn|]. split.
      * intros k Hk. apply Hkeep. simpl. now apply get_delete_none.
      * intros k Hin. apply elem_of_cons in Hin as [Heq|Hin].
        -- inversion Heq; subst. apply Hkeep. simpl. apply get_delete_same.
        -- now apply Hdel.
    + unfold ret. destruct (IH s) as (Hn & Hkeep & Hdel).
      split; [exact Hn|]. split; [exact Hkeep|].
      intros k Hin. apply elem_of_cons in Hin as [Heq|Hin].
      * inversion Heq; subst. rewrite Nat.eqb_refl in E. discriminate.
      * now apply Hdel.
Qed.

(** C1. Once the handler has completed normally, the stream is registered
    and its close listener is attached; and in every state that still holds
    that listener, the close notification of the request completes
    normally, leaves the identifier absent from the registry, and a
    publish to the identifier then completes normally without changing
    anything. *)
Theorem close_unregisters (s : State) (req : Request) (res : Res) :
  (sseMiddleware req res s).1 = Normal tt ->
  let clientId := resolveClientId req (now s) in
  let connected := (sseMiddleware req res s).2 in
  JSMap.get clientId (clients connected) = Some (SSEClient.mk clientId res) /\
  (ref req, RemoveClientOnClose clientId) ∈ listeners connected /\
  (forall later : State,
     (ref req, RemoveClientOnClose clientId) ∈ listeners later ->
     let closed := emitClose (ref req) later in
     closed.1 = Normal tt /\
     JSMap.get clientId (clients closed.2) = None /\
     (forall data, sendToClient clientId data closed.2 = (Normal tt, closed.2))).
Proof.
  intros Hn. apply sseMiddleware_normal_accepting in Hn. cbv zeta.
  rewrite (sseMiddleware_accepted req res s Hn). simpl.
  split; [apply get_set_same|]. split.
  - apply elem_of_app. right. apply list_elem_of_singleton. reflexivity.
  - intros later Hin. unfold emitClose, bind, gets.
    destruct (runListeners_spec (ref req) (listeners later) later) as (H1 & _ & H3).
    split; [exact H1|]. split; [now apply H3|].
    intros data. apply sendToClient_absent. now apply H3.
Qed.

Lemma close_unregisters_witness :
  let connected := (sseMiddleware Sample.connectAbc 4%nat Sample.idle).2 in
  let closed := (emitClose 7%nat connected).2 in
  JSMap.get "abc" (clients connected) = Some (SSEClient.mk "abc" 4%nat) /\
  JSMap.get "abc" (clients closed) = None /\
  sendToClient "abc" (Progress.toObject Sample.tokenStarted) closed = (Normal tt, closed).
Proof.
  pose proof (close_unregisters Sample.idle Sample.connectAbc 4%nat eq_refl) as H.
  cbv zeta in H. destruct H as (Hreg & Hin & Hclose).
  destruct (Hclose _ Hin) as (_ & Hgone & Hnoop).
  split; [exact Hreg|]. split; [exact Hgone|].
  exact (Hnoop (Progress.toObject Sample.tokenStarted)).
Defined.

(** ** Terminal events of the handlers *)

Import Controllers.

(** Resolves the next publish of a run to a registered, accepting client. *)
Ltac publish_step client G F :=
  cbn [negb]; cbv beta iota;
  rewrite (sendToClient_accepted _ _ _ client) by first [exact G | exact F].

(** Closes a goal once every publish of a run has been resolved. *)
Ltac finish_run :=
  unfold respond, bind, modify, ret, logCall, appendCalls; simpl;
  repeat rewrite <- app_assoc; reflexivity.

(** [createToken] on a request lacking a required field: one event,
    [started], then the 400 response. No terminal event follows. *)
Lemma createToken_missing_field sdk req res s client c :
  getProp (body req) "clientId" = Some (JStr c) ->
  JSMap.get c (clients s) = Some client ->
  faulty s !! SSEClient.response client = None ->
  negb (truthy (getProp (body req) "name"))
  || negb (truthy (getProp (body req) "uri"))
  || negb (truthy (getProp (body req) "symbol"))
  || negb (truthy (getProp (body req) "publicKey")) = true ->
  createToken sdk req res s
  = (Normal tt,
     appendCalls
       [Write (SSEClient.response client)
          (frame (Progress.toObject
                    (Progress.mkUpdate Progress.Token Progress.Started None None
                       (Some "Preparing token creation transaction") None)));
        Status res 400;
        Json res
          (JObj [("success", JBool false);
                 ("message", JStr "Missing required fields: name, uri, symbol, or publicKey");
                 ("transaction", JStr EmptyString);
                 ("mint", JStr EmptyString)])] s).
Proof.
  intros Hid G F Hmissing. unfold createToken, tryCatch, bind. rewrite Hid, Hmissing.
  unfold publish, Progress.sendProgressUpdate.
  publish_step client G F. finish_run.
Qed.

(** [deployCollection] on a request lacking a required field: [started],
    the validation stage, then the 400 response. *)
Lemma deployCollection_missing_field sdk req res s client c :
  getProp (body req) "clientId" = Some (JStr c) ->
  JSMap.get c (clients s) = Some client ->
  faulty s !! SSEClient.response client = None ->
  negb (truthy (getProp (body req) "name"))
  || negb (truthy (getProp (body req) "uri"))
  || negb (truthy (getProp (body req) "privateKey")) = true ->
  deployCollection sdk req res s
  = (Normal tt,
     appendCalls
       [Write (SSEClient.response client)
          (frame (Progress.toObject
                    (Progress.mkUpdate Progress.Collection Progress.Started None None
                       (Some "Starting collection deployment process") None)));
        Write (SSEClient.response client)
          (frame (Progress.toObject
                    (stage Progress.Collection "validation" 20
                       "Validating input parameters")));
        Status res 400;
        Json res
          (JObj [("error", JStr "Missing required fields: name, uri, or privateKey")])] s).
Proof.
  intros Hid G F Hmissing. unfold deployCollection, tryCatch, bind.
  rewrite Hid, Hmissing. unfold publish, Progress.sendProgressUpdate.
  do 2 publish_step client G F. finish_run.
Qed.

(** [deployCollection] on a private key that does not decode: three
    events, none of them terminal, then the 400 response with the message
    of [getWalletKeypair]. *)
Lemma deployCollection_invalid_key sdk req res s client c e :
  getProp (body req) "clientId" = Some (JStr c) ->
  JSMap.get c (clients s) = Some client ->
  faulty s !! SSEClient.response client = None ->
  negb (truthy (getProp (body req) "name"))
  || negb (truthy (getProp (body req) "uri"))
  || negb (truthy (getProp (body req) "privateKey")) = false ->
  decodeCollectionKey sdk = inl e ->
  deployCollection sdk req res s
  = (Normal tt,
     appendCalls
       [Write (SSEClient.response client)
          (frame (Progress.toObject
                    (Progress.mkUpdate Progress.Collection Progress.Started None None
                       (Some "Starting collection deployment process") None)));
        Write (SSEClient.response client)
          (frame (Progress.toObject
                    (stage Progress.Collection "validation" 20
                       "Validating input parameters")));
        Write (SSEClient.response client)
          (frame (Progress.toObject
                    (stage Progress.Collection "wallet_init" 40 "Initializing wallet")));
        Status res 400;
        Json res
          (JObj [("error", JStr "Invalid private key format. Must be base64 encoded.")])]
       s).
Proof.
  intros Hid G F Hpresent Hkey. unfold deployCollection, tryCatch, bind.
  rewrite Hid, Hpresent, Hkey. unfold publish, Progress.sendProgressUpdate.
  do 3 publish_step client G F. finish_run.
Qed.

(** [mintCollectionNFT] on a request lacking [rpcEndpoint]: the sibling
    handler does close the operation with an [error] event before the 400
    response. *)
Lemma mintCollectionNFT_missing_endpoint sdk req res s client c :
  getProp (body req) "clientId" = Some (JStr c) ->
  JSMap.get c (clients s) = Some client ->
  faulty s !! SSEClient.response client = None ->
  truthy (getProp (body req) "rpcEndpoint") = false ->
  mintCollectionNFT sdk req res s
  = (Normal tt,
     appendCalls
       [Write (SSEClient.response client)
          (frame (Progress.toObject
                    (Progress.mkUpdate Progress.Nft Progress.Started None None
                       (Some "Starting NFT minting process") None)));
        Write (SSEClient.response client)
          (frame (Progress.toObject
                    (stage Progress.Nft "validation" 15 "Validating input parameters")));
        Write (SSEClient.response client)
          (frame (Progress.toObject (failure Progress.Nft "RPC endpoint is required")));
        Status res 400;
        Json res (JObj [("error", JStr "RPC endpoint is required")])] s).
Proof.
  intros Hid G F Hmissing. unfold mintCollectionNFT, tryCatch, bind.
  rewrite Hid, Hmissing. unfold publish, Progress.sendProgressUpdate. simpl negb.
  do 3 publish_step client G F. finish_run.
Qed.

(** Type and status of an event can be read off its frame. *)
Lemma frame_names u v :
  frame (Progress.toObject u) = frame (Progress.toObject v) ->
  Progress.type u = Progress.type v /\ Progress.status u = Progress.status v.
Proof.
  destruct u as [t st stp pc msg er], v as [t' st' stp' pc' msg' er'].
  unfold frame, Progress.toObject.
  cbn [Progress.type Progress.status Progress.step Progress.progress Progress.message
       Progress.error stringify map app commaJoin commaRest fst snd].
  generalize (commaRest
       (map (fun kv : string * JSValue =>
               quoteJSONString kv.1 +:+ ":" +:+ stringify kv.2)
          (Progress.optionalMember "step" (JStr <$> stp) ++
           Progress.optionalMember "progress" (JNum <$> pc) ++
           Progress.optionalMember "message" (JStr <$> msg) ++
           Progress.optionalMember "error" (JStr <$> er)))).
  generalize (commaRest
       (map (fun kv : string * JSValue =>
               quoteJSONString kv.1 +:+ ":" +:+ stringify kv.2)
          (Progress.optionalMember "step" (JStr <$> stp') ++
           Progress.optionalMember "progress" (JNum <$> pc') ++
           Progress.optionalMember "message" (JStr <$> msg') ++
           Progress.optionalMember "error" (JStr <$> er')))).
  intros R R' H.
  destruct t, st, t', st'; try (split; reflexivity); exfalso; cbv in H; discriminate H.
Qed.

Lemma carriesTerminal_app h cs cs' :
  carriesTerminal h (cs ++ cs') <-> carriesTerminal h cs \/ carriesTerminal h cs'.
Proof.
  unfold carriesTerminal. split.
  - intros (u & Ht & Hin). rewrite written_app in Hin.
    apply elem_of_app in Hin as [Hin|Hin]; [left|right]; eauto.
  - intros [(u & Ht & Hin)|(u & Ht & Hin)]; exists u; split; auto;
      rewrite written_app; apply elem_of_app; auto.
Qed.

(** A frame of an event that is not terminal is no terminal event. *)
Lemma carriesTerminal_write h r v :
  Progress.terminal v = false ->
  ~ carriesTerminal h [Write r (frame (Progress.toObject v))].
Proof.
  intros Hv (u & Ht & Hin). unfold written in Hin. simpl in Hin.
  destruct (Nat.eqb r h); [|now apply elem_of_nil in Hin].
  apply list_elem_of_singleton in Hin. apply frame_names in Hin as [_ Hst].
  unfold Progress.terminal in *. rewrite Hst in Ht. congruence.
Qed.

Lemma carriesTerminal_other h c : 
  match c with Write _ _ => False | _ => True end -> ~ carriesTerminal h [c].
Proof.
  intros Hc (u & _ & Hin). destruct c; try contradiction;
    unfold written in Hin; simpl in Hin; now apply elem_of_nil in Hin.
Qed.

(** On the validation branch of [createToken] a stream that carried no
    terminal event carries none afterwards. *)
Lemma createToken_missing_field_no_terminal sdk req res s client c :
  getProp (body req) "clientId" = Some (JStr c) ->
  JSMap.get c (clients s) = Some client ->
  faulty s !! SSEClient.response client = None ->
  negb (truthy (getProp (body req) "name"))
  || negb (truthy (getProp (body req) "uri"))
  || negb (truthy (getProp (body req) "symbol"))
  || negb (truthy (getProp (body req) "publicKey")) = true ->
  ~ carriesTerminal (SSEClient.response client) (calls s) ->
  ~ carriesTerminal (SSEClient.response client) (calls (createToken sdk req res s).2).
Proof.
  intros Hid G F Hmissing Hbefore.
  rewrite (createToken_missing_field sdk req res s client c Hid G F Hmissing).
  simpl. rewrite carriesTerminal_app. intros [H|H]; [contradiction|].
  change (carriesTerminal (SSEClient.response client)
            ([Write (SSEClient.response client)
                (frame (Progress.toObject
                   (Progress.mkUpdate Progress.Token Progress.Started None None
                      (Some "Preparing token creation transaction") None)))]
             ++ [Status res 400] ++ [Json res
                   (JObj [("success", JBool false);
                          ("message", JStr "Missing required fields: name, uri, symbol, or publicKey");
                          ("transaction", JStr EmptyString);
                          ("mint", JStr EmptyString)])])) in H.
  rewrite !carriesTerminal_app in H. destruct H as [H|[H|H]].
  - now apply carriesTerminal_write in H.
  - now apply carriesTerminal_other in H.
  - now apply carriesTerminal_other in H.
Qed.

(** The same on the validation branch of [deployCollection]. *)
Lemma deployCollection_missing_field_no_terminal sdk req res s client c :
  getProp (body req) "clientId" = Some (JStr c) ->
  JSMap.get c (clients s) = Some client ->
  faulty s !! SSEClient.response client = None ->
  negb (truthy (getProp (body req) "name"))
  || negb (truthy (getProp (body req) "uri"))
  || negb (truthy (getProp (body req) "privateKey")) = true ->
  ~ carriesTerminal (SSEClient.response client) (calls s) ->
  ~ carriesTerminal (SSEClient.response client)
      (calls (deployCollection sdk req res s).2).
Proof.
  intros Hid G F Hmissing Hbefore.
  rewrite (deployCollection_missing_field sdk req res s client c Hid G F Hmissing).
  simpl. rewrite carriesTerminal_app. intros [H|H]; [contradiction|].
  change (carriesTerminal (SSEClient.response client)
            ([Write (SSEClient.response client)
                (frame (Progress.toObject
                   (Progress.mkUpdate Progress.Collection Progress.Started None None
                      (Some "Starting collection deployment process") None)))]
             ++ [Write (SSEClient.response client)
                   (frame (Progress.toObject
                      (stage Progress.Collection "validation" 20
                         "Validating input parameters")))]
             ++ [Status res 400]
             ++ [Json res
                   (JObj [("error", JStr "Missing required fields: name, uri, or privateKey")])]))
    in H.
  rewrite !carriesTerminal_app in H. destruct H as [H|[H|[H|H]]].
  - now apply carriesTerminal_write in H.
  - now apply carriesTerminal_write in H.
  - now apply carriesTerminal_other in H.
  - now apply carriesTerminal_other in H.
Qed.

(** On its validation branch [mintCollectionNFT] does send one. *)
Lemma mintCollectionNFT_missing_endpoint_terminal sdk req res s client c :
  getProp (body req) "clientId" = Some (JStr c) ->
  JSMap.get c (clients s) = Some client ->
  faulty s !! SSEClient.response client = None ->
  truthy (getProp (body req) "rpcEndpoint") = false ->
  carriesTerminal (SSEClient.response client) (calls (mintCollectionNFT sdk req res s).2).
Proof.
  intros Hid G F Hmissing.
  rewrite (mintCollectionNFT_missing_endpoint sdk req res s client c Hid G F Hmissing).
  simpl. apply carriesTerminal_app. right.
  exists (failure Progress.Nft "RPC endpoint is required"). split; [reflexivity|].
  unfold written. simpl. rewrite Nat.eqb_refl. set_solver.
Qed.

(** C7, at a failing input. A token request without [name], whose client
    [abc] listens on response 1: the handler completes normally with a 400
    response, the stream has received the [started] event and nothing else,
    and so carries no terminal event for the operation that began. *)
Theorem createToken_validation_failure_emits_no_terminal_event :
  createToken Sample.tokenSdk Sample.tokenWithoutName 5%nat Sample.idle
  = (Normal tt,
     appendCalls
       [Write 1%nat (frame (Progress.toObject Sample.tokenStarted));
        Status 5%nat 400;
        Json 5%nat
          (JObj [("success", JBool false);
                 ("message", JStr "Missing required fields: name, uri, symbol, or publicKey");
                 ("transaction", JStr EmptyString);
                 ("mint", JStr EmptyString)])] Sample.idle) /\
  written 1%nat
    (calls (createToken Sample.tokenSdk Sample.tokenWithoutName 5%nat Sample.idle).2)
  = ["data: {" +:+ quoted "type" +:+ ":" +:+ quoted "token" +:+ ","
     +:+ quoted "status" +:+ ":" +:+ quoted "started" +:+ ","
     +:+ quoted "message" +:+ ":" +:+ quoted "Preparing token creation transaction"
     +:+ "}" +:+ newline +:+ newline] /\
  ~ carriesTerminal 1%nat
      (calls (createToken Sample.tokenSdk Sample.tokenWithoutName 5%nat Sample.idle).2).
Proof.
  split; [reflexivity|]. split; [reflexivity|].
  apply (createToken_missing_field_no_terminal Sample.tokenSdk Sample.tokenWithoutName
           5%nat Sample.idle Sample.abc "abc"); try reflexivity.
  intros (u & _ & Hin). simpl in Hin. now apply elem_of_nil in Hin.
Qed.

(** * Further properties *)

(** ** Registering and unregistering *)

Lemma withClients_same f s : f (clients s) = clients s -> withClients f s = s.
Proof. intros H. destruct s. unfold withClients. simpl in *. now rewrite H. Qed.

Lemma delete_absent {V} k (m : JSMap.t V) :
  JSMap.get k m = None -> JSMap.delete k m = m.
Proof.
  induction m as [|[k' v'] m IH]; simpl; [reflexivity|].
  destruct (String.eqb k k'); [discriminate|]. intros H. now rewrite IH.
Qed.

Lemma delete_app {V} k (m m' : JSMap.t V) :
  JSMap.delete k (m ++ m') = JSMap.delete k m ++ JSMap.delete k m'.
Proof.
  induction m as [|[k' v'] m IH]; simpl; [reflexivity|].
  destruct (String.eqb k k'); simpl; now rewrite IH.
Qed.

Lemma keys_delete {V} k (m : JSMap.t V) :
  JSMap.keys (JSMap.delete k m) = filter (fun k' => k' <> k) (JSMap.keys m).
Proof.
  induction m as [|[k' v'] m IH]; simpl; [reflexivity|].
  destruct (String.eqb k k') eqn:E.
  - apply String.eqb_eq in E. subst k'. rewrite filter_cons_False by tauto. exact IH.
  - apply String.eqb_neq in E. rewrite filter_cons_True by congruence.
    simpl. now rewrite IH.
Qed.

Lemma keys_set {V} k v (m : JSMap.t V) :
  JSMap.keys (JSMap.set k v m)
  = if JSMap.has k m then JSMap.keys m else JSMap.keys m ++ [k].
Proof.
  unfold JSMap.set. destruct (JSMap.has k m).
  - apply keys_replace.
  - unfold JSMap.keys. now rewrite map_app.
Qed.

(** X1. Registering a client files it under its [id], changes the
    registration of no other identifier and moves no entry: an identifier
    already present keeps its place in the iteration order, a new one goes
    to the end. Listeners and the record of calls are not touched. *)
Theorem addClient_leaves_others (s : State) (client : SSEClient.t) :
  let after := (addClient client s).2 in
  JSMap.get (SSEClient.id client) (clients after) = Some client /\
  (forall k, k <> SSEClient.id client ->
             JSMap.get k (clients after) = JSMap.get k (clients s)) /\
  JSMap.keys (clients after)
  = (if JSMap.has (SSEClient.id client) (clients s)
     then JSMap.keys (clients s)
     else JSMap.keys (clients s) ++ [SSEClient.id client]) /\
  listeners after = listeners s /\ calls after = calls s.
Proof.
  simpl. split; [apply get_set_same|].
  split; [|split; [apply keys_set|split; reflexivity]].
  intros k Hk. apply get_set_other. congruence.
Qed.

(** X2. Unregistering removes the identifier, changes the registration of
    no other identifier, keeps the remaining entries in their order, and
    returns the state as it was when the identifier was not registered. *)
Theorem removeClient_leaves_others (s : State) (clientId : string) :
  let after := (removeClient clientId s).2 in
  JSMap.get clientId (clients after) = None /\
  (forall k, k <> clientId ->
             JSMap.get k (clients after) = JSMap.get k (clients s)) /\
  JSMap.keys (clients after) = filter (fun k => k <> clientId) (JSMap.keys (clients s)) /\
  (JSMap.get clientId (clients s) = None -> removeClient clientId s = (Normal tt, s)).
Proof.
  simpl. split; [apply get_delete_same|]. split; [|split; [apply keys_delete|]].
  - intros k Hk. apply get_delete_other. congruence.
  - intros Habs. unfold removeClient, modify. f_equal.
    apply withClients_same. now apply delete_absent.
Qed.

(** X3. Registering an identifier that was not registered and then
    unregistering it gives back the state from before. *)
Theorem addClient_then_removeClient (s : State) (client : SSEClient.t) :
  JSMap.get (SSEClient.id client) (clients s) = None ->
  (addClient client ;; removeClient (SSEClient.id client)) s = (Normal tt, s).
Proof.
  intros Habs. unfold addClient, removeClient, bind, modify. f_equal.
  destruct s as [m ls t f cs]. unfold withClients. simpl in *. f_equal.
  unfold JSMap.set, JSMap.has. rewrite Habs. rewrite delete_app.
  rewrite (delete_absent _ _ Habs). simpl. rewrite String.eqb_refl. apply app_nil_r.
Qed.

Lemma addClient_then_removeClient_witness :
  JSMap.get "pqr" (clients Sample.idle) = None /\
  (addClient Sample.pqr ;; removeClient "pqr") Sample.idle = (Normal tt, Sample.idle).
Proof.
  split; [reflexivity|].
  exact (addClient_then_removeClient Sample.idle Sample.pqr eq_refl).
Defined.

(** ** Invariants of the registry *)

Lemma filedById_set client m :
  filedById m -> filedById (JSMap.set (SSEClient.id client) client m).
Proof.
  unfold filedById, JSMap.set. intros H. destruct (JSMap.has _ m).
  - induction m as [|[k v] m IH]; simpl; [constructor|].
    apply Forall_cons in H as [Hkv Hm].
    destruct (String.eqb (SSEClient.id client) k) eqn:E.
    + apply String.eqb_eq in E. apply Forall_cons. split; [simpl; congruence|exact Hm].
    + apply Forall_cons. split; [exact Hkv|auto].
  - apply Forall_app. split; [exact H|]. now apply Forall_singleton.
Qed.

Lemma filedById_delete k m : filedById m -> filedById (JSMap.delete k m).
Proof.
  unfold filedById. induction m as [|[k' v] m IH]; simpl; [auto|].
  intros H. apply Forall_cons in H as [Hkv Hm].
  destruct (String.eqb k k'); [auto|]. apply Forall_cons. auto.
Qed.

Lemma runListeners_filedById req ls s :
  filedById (clients s) -> filedById (clients (runListeners req ls s).2).
Proof.
  revert s. induction ls as [|[r l] rest IH]; intros s H; simpl; [exact H|].
  unfold bind. destruct (Nat.eqb r req).
  - destruct l as [k]. simpl. unfold removeClient, modify. apply IH. simpl.
    now apply filedById_delete.
  - unfold ret. now apply IH.
Qed.

Lemma sseMiddleware_clients req res s :
  clients (sseMiddleware req res s).2
  = JSMap.set (resolveClientId req (now s))
      (SSEClient.mk (resolveClientId req (now s)) res) (clients s).
Proof.
  destruct (faulty s !! res) as [e|] eqn:F.
  - unfold sseMiddleware, setHeader, flushHeaders, addClient, onClose.
    unfold bind, modify, gets. simpl. unfold write. simpl. now rewrite F.
  - now rewrite (sseMiddleware_accepted req res s F).
Qed.

Lemma handle_filedById ev s : filedById (clients s) -> filedById (clients (handle ev s)).
Proof.
  intros H. destruct ev; simpl.
  - rewrite sseMiddleware_clients.
    exact (filedById_set (SSEClient.mk (resolveClientId req (now s)) res) _ H).
  - unfold emitClose, bind, gets. now apply runListeners_filedById.
  - now rewrite keeps_createToken.
  - now rewrite keeps_deployCollection.
  - now rewrite keeps_mintCollectionNFT.
  - exact H.
Qed.

(** X4. Whatever requests, close notifications and changes of the
    environment the process has seen since its start, the registry holds at
    most one entry per identifier and every entry stands under the [id] of
    the client it holds. *)
Theorem registry_invariant (clock : N) (history : list Event) :
  let s := foldl (fun s ev => handle ev s) (initial clock) history in
  JSMap.wf (clients s) /\ filedById (clients s).
Proof.
  cbv zeta.
  assert (H : forall s, JSMap.wf (clients s) /\ filedById (clients s) ->
                        JSMap.wf (clients (foldl (fun s ev => handle ev s) s history))
                        /\ filedById (clients (foldl (fun s ev => handle ev s) s history))).
  { induction history as [|ev evs IH]; intros s Hinv; simpl; [exact Hinv|].
    apply IH. destruct Hinv as [Hwf Hid].
    split; [now apply handle_wf|now apply handle_filedById]. }
  apply H. split; [apply wf_empty|constructor].
Qed.

(** ** Broadcast *)

Lemma elem_get {V} k v (m : JSMap.t V) :
  JSMap.wf m -> (k, v) ∈ m -> JSMap.get k m = Some v.
Proof.
  unfold JSMap.wf. induction m as [|[k' v'] m IH]; simpl.
  - intros _ Hin. now apply elem_of_nil in Hin.
  - rewrite NoDup_cons. intros [Hnin Hnd] Hin.
    apply elem_of_cons in Hin as [Heq|Hin].
    + inversion Heq; subst. now rewrite String.eqb_refl.
    + destruct (String.eqb k k') eqn:E; [|auto].
      apply String.eqb_eq in E. subst k'. exfalso. apply Hnin.
      apply list_elem_of_fmap. exists (k, v). split; [reflexivity|exact Hin].
Qed.

Lemma forEach_sendEach data entries s :
  (forall k c, (k, c) ∈ entries -> JSMap.get k (clients s) = Some c) ->
  forEach entries (fun client => write (SSEClient.response client) (frame data)) s
  = sendEach data (JSMap.keys entries) s.
Proof.
  revert s. induction entries as [|[k c] rest IH]; intros s Hget; simpl; [reflexivity|].
  unfold bind.
  rewrite (sendToClient_present k data s c) by (apply Hget; apply elem_of_cons; now left).
  unfold write at 1 3. destruct (faulty s !! SSEClient.response c); [reflexivity|].
  apply IH. intros k' c' Hin. simpl. apply Hget. apply elem_of_cons. now right.
Qed.

(** X5. A broadcast is the same statement as sending the payload to every
    registered identifier in turn, oldest registration first: same writes,
    same completion, and it stops at the same place when a write raises. *)
Theorem broadcast_is_send_to_each (s : State) (data : JSValue) :
  JSMap.wf (clients s) ->
  broadcast data s = sendEach data (JSMap.keys (clients s)) s.
Proof.
  intros Hwf. unfold broadcast, bind, gets. apply forEach_sendEach.
  intros k c Hin. now apply elem_get.
Qed.

Lemma broadcast_is_send_to_each_witness :
  JSMap.wf (clients Sample.raisingWrite) /\
  broadcast JNull Sample.raisingWrite = sendEach JNull ["abc"; "xyz"] Sample.raisingWrite.
Proof.
  assert (W : JSMap.wf (clients Sample.raisingWrite)).
  { unfold JSMap.wf. refine (bool_decide_unpack _ _). vm_compute. exact I. }
  split; [exact W|].
  exact (broadcast_is_send_to_each Sample.raisingWrite JNull W).
Defined.

Lemma forEach_only_writes data entries s :
  exists cs,
    (forEach entries
       (fun client => write (SSEClient.response client) (frame data)) s).2
    = appendCalls cs s /\
    Forall (writesTo (responses entries) (frame data)) cs.
Proof.
  revert s. induction entries as [|[k c] rest IH]; intros s; simpl.
  - exists []. split; [now rewrite appendCalls_nil|constructor].
  - unfold bind. unfold write at 1. destruct (faulty s !! SSEClient.response c).
    + exists []. split; [simpl; now rewrite appendCalls_nil|constructor].
    + destruct (IH (logCall (Write (SSEClient.response c) (frame data)) s))
        as (cs & Hrun & Hall).
      exists (Write (SSEClient.response c) (frame data) :: cs). split.
      * rewrite Hrun, logCall_appendCalls, appendCalls_app. reflexivity.
      * apply Forall_cons. split.
        -- exists (SSEClient.response c). split; [apply elem_of_cons; now left|reflexivity].
        -- eapply Forall_impl; [exact Hall|]. intros x (r & Hr & ->).
           exists r. split; [apply elem_of_cons; now right|reflexivity].
Qed.

(** X6. Whether it completes or raises, a broadcast adds to the record of
    calls nothing but writes of the one frame to responses that are
    registered, and so leaves the output of every unregistered response as
    it was. *)
Theorem broadcast_only_writes_to_registered (s : State) (data : JSValue) :
  (exists cs,
     (broadcast data s).2 = appendCalls cs s /\
     Forall (writesTo (responses (clients s)) (frame data)) cs) /\
  (forall r, r ∉ responses (clients s) ->
             written r (calls (broadcast data s).2) = written r (calls s)).
Proof.
  destruct (forEach_only_writes data (clients s) s) as (cs & Hrun & Hall).
  assert (Hb : (broadcast data s).2 = appendCalls cs s).
  { unfold broadcast, bind, gets. exact Hrun. }
  split; [exists cs; split; [exact Hb|exact Hall]|].
  intros r Hr. rewrite Hb. simpl. rewrite written_app.
  assert (Hnone : written r cs = []).
  { clear Hb Hrun. induction Hall as [|c cs' (r' & Hr' & ->) _ IH]; [reflexivity|].
    change (Write r' (frame data) :: cs') with ([Write r' (frame data)] ++ cs').
    rewrite written_app, IH, written_other; [reflexivity|].
    intros ->. contradiction. }
  rewrite Hnone. apply app_nil_r.
Qed.

(** ** Connections and their close notifications *)

Lemma runListeners_closing req ls s :
  runListeners req ls s = (Normal tt, withClients (closing req ls) s).
Proof.
  revert s. induction ls as [|[r [k]] rest IH]; intros s; simpl.
  - unfold ret. f_equal. symmetry. now apply withClients_same.
  - unfold bind. destruct (Nat.eqb r req); simpl.
    + unfold removeClient, modify. now rewrite IH.
    + unfold ret. now rewrite IH.
Qed.

Lemma emitClose_closing req s :
  emitClose req s = (Normal tt, withClients (closing req (listeners s)) s).
Proof. unfold emitClose, bind, gets. apply runListeners_closing. Qed.

Lemma get_closing_other req ls m k :
  (req, RemoveClientOnClose k) ∉ ls ->
  JSMap.get k (closing req ls m) = JSMap.get k m.
Proof.
  revert m. induction ls as [|[r [k']] rest IH]; intros m Hnin; simpl; [reflexivity|].
  apply not_elem_of_cons in Hnin as [Hne Hrest]. rewrite IH by exact Hrest.
  destruct (Nat.eqb r req) eqn:E; [|reflexivity].
  apply Nat.eqb_eq in E. subst r. apply get_delete_other. congruence.
Qed.

Lemma closing_absent req ls m :
  (forall k, (req, RemoveClientOnClose k) ∈ ls -> JSMap.get k m = None) ->
  closing req ls m = m.
Proof.
  revert m. induction ls as [|[r [k]] rest IH]; intros m H; simpl; [reflexivity|].
  destruct (Nat.eqb r req) eqn:E.
  - apply Nat.eqb_eq in E. subst r.
    rewrite delete_absent by (apply H; apply elem_of_cons; now left).
    apply IH. intros k' Hin. apply H. apply elem_of_cons. now right.
  - apply IH. intros k' Hin. apply H. apply elem_of_cons. now right.
Qed.

Lemma get_closing_own req ls m k :
  (req, RemoveClientOnClose k) ∈ ls -> JSMap.get k (closing req ls m) = None.
Proof.
  intros Hin.
  destruct (runListeners_spec req ls (mkState m [] 0%N ∅ [])) as (_ & _ & H).
  specialize (H k Hin). now rewrite runListeners_closing in H.
Qed.

(** X7. A close notification touches nothing but the registry, and there
    only the identifiers its own listeners captured: the registration of
    every other identifier, the listeners, the clock, the failed responses
    and the record of calls stay as they were. *)
Theorem emitClose_leaves_others (s : State) (req : Req) :
  let closed := emitClose req s in
  closed.1 = Normal tt /\
  (forall k, (req, RemoveClientOnClose k) ∉ listeners s ->
             JSMap.get k (clients closed.2) = JSMap.get k (clients s)) /\
  listeners closed.2 = listeners s /\ calls closed.2 = calls s /\
  faulty closed.2 = faulty s /\ now closed.2 = now s.
Proof.
  cbv zeta. rewrite emitClose_closing. simpl.
  split; [reflexivity|]. split; [|repeat split].
  intros k Hk. now apply get_closing_other.
Qed.

(** X8. Closing is idempotent, and on a request without listeners it does
    nothing: a second close notification of the same request returns the
    state the first one left. *)
Theorem emitClose_twice (s : State) (req : Req) :
  emitClose req (emitClose req s).2 = (Normal tt, (emitClose req s).2) /\
  (Forall (fun rl => rl.1 <> req) (listeners s) -> emitClose req s = (Normal tt, s)).
Proof.
  split.
  - rewrite (emitClose_closing req s). simpl. rewrite emitClose_closing. simpl.
    f_equal. apply withClients_same. simpl. apply closing_absent.
    intros k Hin. now apply get_closing_own.
  - intros Hnone. rewrite emitClose_closing. f_equal. apply withClients_same.
    apply closing_absent. intros k Hin. rewrite Forall_forall in Hnone.
    now destruct (Hnone _ Hin).
Qed.

(** X9. Two connections that resolve to one identifier: the second takes
    the registration, and when the first connection then closes, its
    listener unregisters the identifier although the second connection is
    still open, so that a publish to the identifier reaches nobody. *)
Theorem stale_close_unregisters_newer
    (s : State) (req1 req2 : Request) (res1 res2 : Res) (data : JSValue) :
  faulty s !! res1 = None ->
  faulty s !! res2 = None ->
  resolveClientId req1 (now s) = resolveClientId req2 (now s) ->
  let clientId := resolveClientId req2 (now s) in
  let both := (sseMiddleware req2 res2 (sseMiddleware req1 res1 s).2).2 in
  let closed := (emitClose (ref req1) both).2 in
  JSMap.get clientId (clients both) = Some (SSEClient.mk clientId res2) /\
  JSMap.get clientId (clients closed) = None /\
  sendToClient clientId data closed = (Normal tt, closed).
Proof.
  intros F1 F2 Hsame. cbv zeta.
  rewrite (sseMiddleware_accepted req1 res1 s F1).
  rewrite sseMiddleware_accepted by exact F2. simpl.
  rewrite emitClose_closing. simpl.
  split; [apply get_set_same|].
  assert (Hgone : JSMap.get (resolveClientId req2 (now s))
                    (closing (ref req1)
                       ((listeners s
                         ++ [(ref req1, RemoveClientOnClose (resolveClientId req1 (now s)))])
                        ++ [(ref req2, RemoveClientOnClose (resolveClientId req2 (now s)))])
                       (JSMap.set (resolveClientId req2 (now s))
                          (SSEClient.mk (resolveClientId req2 (now s)) res2)
                          (JSMap.set (resolveClientId req1 (now s))
                             (SSEClient.mk (resolveClientId req1 (now s)) res1)
                             (clients s)))) = None).
  { apply get_closing_own. rewrite <- Hsame.
    apply elem_of_app. left. apply elem_of_app. right.
    apply list_elem_of_singleton. reflexivity. }
  split; [exact Hgone|]. apply sendToClient_absent. exact Hgone.
Qed.

Lemma stale_close_unregisters_newer_witness :
  let both :=
    (sseMiddleware (mkRequest 8%nat {[ "clientId" := "abc" ]} JNull) 5%nat
       (sseMiddleware Sample.connectAbc 4%nat Sample.idle).2).2 in
  let closed := (emitClose 7%nat both).2 in
  JSMap.get "abc" (clients both) = Some (SSEClient.mk "abc" 5%nat) /\
  JSMap.get "abc" (clients closed) = None /\
  sendToClient "abc" JNull closed = (Normal tt, closed).
Proof.
  exact (stale_close_unregisters_newer Sample.idle Sample.connectAbc
           (mkRequest 8%nat {[ "clientId" := "abc" ]} JNull) 4%nat 5%nat JNull
           eq_refl eq_refl eq_refl).
Defined.

(** X10. When the first write raises, the handler ends with that error
    after it has registered the stream and before it attaches the close
    listener: on a request that had no listener, the close notification
    then changes nothing and the registration stays. *)
Theorem failed_first_write_leaves_registration
    (s : State) (req : Request) (res : Res) (e : Exn) :
  faulty s !! res = Some e ->
  Forall (fun rl => rl.1 <> ref req) (listeners s) ->
  let clientId := resolveClientId req (now s) in
  let run := sseMiddleware req res s in
  run.1 = Throw e /\
  JSMap.get clientId (clients run.2) = Some (SSEClient.mk clientId res) /\
  emitClose (ref req) run.2 = (Normal tt, run.2).
Proof.
  intros F Hfresh. cbv zeta.
  destruct (sseMiddleware_raises req res s e F) as (Hthrow & Hls & Hreg).
  split; [exact Hthrow|]. split; [exact Hreg|].
  rewrite emitClose_closing. f_equal. apply withClients_same.
  apply closing_absent. intros k Hin. rewrite Hls in Hin.
  rewrite Forall_forall in Hfresh. now destruct (Hfresh _ Hin).
Qed.

Lemma failed_first_write_leaves_registration_witness :
  let run := sseMiddleware (mkRequest 8%nat {[ "clientId" := "late" ]} JNull) 1%nat
               Sample.raisingWrite in
  run.1 = Throw (Error "write EPIPE") /\
  JSMap.get "late" (clients run.2) = Some (SSEClient.mk "late" 1%nat) /\
  emitClose 8%nat run.2 = (Normal tt, run.2).
Proof.
  exact (failed_first_write_leaves_registration Sample.raisingWrite
           (mkRequest 8%nat {[ "clientId" := "late" ]} JNull) 1%nat
           (Error "write EPIPE") eq_refl (Forall_nil_2 _)).
Defined.

Lemma sseMiddleware_calls req res s :
  exists cs, calls (sseMiddleware req res s).2 = calls s ++ cs /\
             forall r, r <> res -> written r cs = [].
Proof.
  destruct (faulty s !! res) as [e|] eqn:F.
  - exists [SetHeader res "Content-Type" "text/event-stream";
            SetHeader res "Cache-Control" "no-cache";
            SetHeader res "Connection" "keep-alive";
            FlushHeaders res].
    split; [|reflexivity].
    unfold sseMiddleware, setHeader, flushHeaders, addClient, onClose.
    unfold bind, modify, gets. simpl. unfold write. simpl. rewrite F. simpl.
    now repeat rewrite <- app_assoc.
  - exists (connectionCalls res (resolveClientId req (now s))).
    rewrite (sseMiddleware_accepted req res s F). split; [reflexivity|].
    intros r Hr. unfold written. simpl.
    destruct (Nat.eqb res r) eqn:E; [|reflexivity].
    apply Nat.eqb_eq in E. congruence.
Qed.

(** X11. A new connection disturbs no other stream, whether its first write
    is accepted or raises: identifiers other than its own keep their
    registration, responses other than its own receive nothing, and the
    listeners already attached stay, in their order, at the front. *)
Theorem sseMiddleware_leaves_others (s : State) (req : Request) (res : Res) :
  let after := (sseMiddleware req res s).2 in
  (forall k, k <> resolveClientId req (now s) ->
             JSMap.get k (clients after) = JSMap.get k (clients s)) /\
  (forall r, r <> res -> written r (calls after) = written r (calls s)) /\
  (exists added, listeners after = listeners s ++ added).
Proof.
  cbv zeta. split; [|split].
  - intros k Hk. rewrite sseMiddleware_clients. apply get_set_other. congruence.
  - intros r Hr. destruct (sseMiddleware_calls req res s) as (cs & Hcs & Hw).
    rewrite Hcs, written_app, (Hw r Hr). apply app_nil_r.
  - destruct (faulty s !! res) as [e|] eqn:F.
    + exists []. destruct (sseMiddleware_raises req res s e F) as (_ & Hls & _).
      now rewrite Hls, app_nil_r.
    + exists [(ref req, RemoveClientOnClose (resolveClientId req (now s)))].
      now rewrite (sseMiddleware_accepted req res s F).
Qed.

(** ** Identifiers from the clock *)

Lemma timestampId_inj t1 t2 : timestampId t1 = timestampId t2 -> t1 = t2.
Proof.
  unfold timestampId, numberToString. intros H.
  apply (f_equal NilEmpty.int_of_string) in H. rewrite !NilEmpty.isi in H.
  injection H as H. apply DecimalZ.to_int_inj in H. now apply N2Z.inj.
Qed.

(** X12. Two connections without a route parameter, the second made when
    the clock reads [later]: they get the same identifier exactly when the
    clock has not advanced. If it has not, the second connection takes the
    registration of the first; if it has, both are registered. *)
Theorem anonymous_connections_share_id_iff_same_clock
    (s : State) (req1 req2 : Request) (res1 res2 : Res) (later : N) :
  params req1 !! "clientId" = None \/ params req1 !! "clientId" = Some EmptyString ->
  params req2 !! "clientId" = None \/ params req2 !! "clientId" = Some EmptyString ->
  faulty s !! res1 = None ->
  faulty s !! res2 = None ->
  let first := (sseMiddleware req1 res1 s).2 in
  let second :=
    (sseMiddleware req2 res2
       (mkState (clients first) (listeners first) later (faulty first) (calls first))).2 in
  let id1 := timestampId (now s) in
  let id2 := timestampId later in
  (id1 = id2 <-> now s = later) /\
  JSMap.get id2 (clients second) = Some (SSEClient.mk id2 res2) /\
  (now s <> later -> JSMap.get id1 (clients second) = Some (SSEClient.mk id1 res1)).
Proof.
  intros P1 P2 F1 F2. cbv zeta.
  rewrite (sseMiddleware_accepted req1 res1 s F1). simpl.
  rewrite sseMiddleware_accepted by exact F2. simpl.
  rewrite (resolveClientId_absent req1 (now s) P1).
  rewrite (resolveClientId_absent req2 later P2).
  split; [|split].
  - split; [apply timestampId_inj|now intros ->].
  - apply get_set_same.
  - intros Hne. rewrite get_set_other; [apply get_set_same|].
    intros Heq. apply Hne. symmetry. now apply timestampId_inj.
Qed.

Lemma anonymous_connections_share_id_iff_same_clock_witness :
  let first := (sseMiddleware Sample.connectAnonymous 4%nat Sample.idle).2 in
  let second :=
    (sseMiddleware (mkRequest 9%nat ∅ JNull) 5%nat
       (mkState (clients first) (listeners first) 1700000000000%N
          (faulty first) (calls first))).2 in
  JSMap.get "1700000000000" (clients second)
  = Some (SSEClient.mk "1700000000000" 5%nat).
Proof.
  exact (proj1 (proj2
           (anonymous_connections_share_id_iff_same_clock Sample.idle
              Sample.connectAnonymous (mkRequest 9%nat ∅ JNull) 4%nat 5%nat
              1700000000000%N (or_introl eq_refl) (or_introl eq_refl)
              eq_refl eq_refl))).
Defined.

(** ** Duplicate identifiers and interleaved producers *)

Lemma elem_set {V} k v k' v' (m : JSMap.t V) :
  JSMap.wf m -> (k', v') ∈ JSMap.set k v m ->
  (k' = k /\ v' = v) \/ (k' <> k /\ (k', v') ∈ m).
Proof.
  intros Hwf Hin. apply (elem_get _ _ _ (wf_set k v m Hwf)) in Hin.
  destruct (String.eqb k k') eqn:E.
  - apply String.eqb_eq in E. subst k'. rewrite get_set_same in Hin.
    left. split; congruence.
  - apply String.eqb_neq in E. rewrite get_set_other in Hin by exact E.
    right. split; [congruence|]. now apply get_some_elem.
Qed.

Lemma broadcast_written_unregistered data s r :
  r ∉ responses (clients s) ->
  written r (calls (broadcast data s).2) = written r (calls s).
Proof.
  intros Hr. destruct (forEach_only_writes data (clients s) s) as (cs & Hrun & Hall).
  unfold broadcast, bind, gets. rewrite Hrun. simpl. rewrite written_app.
  assert (Hnone : written r cs = []).
  { clear Hrun. induction Hall as [|c cs' (r' & Hr' & ->) _ IH]; [reflexivity|].
    change (Write r' (frame data) :: cs') with ([Write r' (frame data)] ++ cs').
    rewrite written_app, IH, written_other; [reflexivity|].
    intros ->. contradiction. }
  rewrite Hnone. apply app_nil_r.
Qed.

(** X13. Two connections under one identifier, on different responses, the
    first response being registered under no other identifier: from then on
    a broadcast writes nothing to the first response, and when the
    registered responses accept it does write its frame to the second. *)
Theorem duplicate_identifier_silences_first
    (s : State) (req1 req2 : Request) (res1 res2 : Res) (data : JSValue) :
  JSMap.wf (clients s) ->
  faulty s !! res1 = None ->
  faulty s !! res2 = None ->
  resolveClientId req1 (now s) = resolveClientId req2 (now s) ->
  res1 <> res2 ->
  (forall k c, (k, c) ∈ clients s -> k <> resolveClientId req1 (now s) ->
               SSEClient.response c <> res1) ->
  let both := (sseMiddleware req2 res2 (sseMiddleware req1 res1 s).2).2 in
  written res1 (calls (broadcast data both).2) = written res1 (calls both) /\
  (accepting both (clients both) ->
   frame data ∈ written res2 (calls (broadcast data both).2)).
Proof.
  intros Hwf F1 F2 Hsame Hne Hother. cbv zeta.
  set (both := (sseMiddleware req2 res2 (sseMiddleware req1 res1 s).2).2).
  assert (Hclients : clients both
                     = JSMap.set (resolveClientId req1 (now s))
                         (SSEClient.mk (resolveClientId req1 (now s)) res2)
                         (JSMap.set (resolveClientId req1 (now s))
                            (SSEClient.mk (resolveClientId req1 (now s)) res1)
                            (clients s))).
  { unfold both. rewrite (sseMiddleware_accepted req1 res1 s F1).
    rewrite sseMiddleware_accepted by exact F2. simpl. now rewrite <- Hsame. }
  split.
  - apply broadcast_written_unregistered. rewrite Hclients.
    intros Hin. apply list_elem_of_fmap in Hin as ([k c] & Hres & Hin).
    simpl in Hres.
    apply elem_set in Hin; [|now apply wf_set].
    destruct Hin as [[_ ->]|[Hk Hin]]; [simpl in Hres; congruence|].
    apply elem_set in Hin; [|exact Hwf].
    destruct Hin as [[Hk' _]|[_ Hin]]; [contradiction|].
    now apply (Hother k c Hin Hk).
  - intros Hacc.
    assert (Hrun : broadcast data both
                   = (Normal tt, appendCalls (broadcastWrites data (clients both)) both)).
    { unfold broadcast, bind, gets. now apply forEach_accepting. }
    rewrite Hrun. simpl. rewrite written_app. apply elem_of_app. right.
    assert (Hin : (resolveClientId req1 (now s),
                   SSEClient.mk (resolveClientId req1 (now s)) res2) ∈ clients both).
    { apply get_some_elem. rewrite Hclients. apply get_set_same. }
    clear Hrun Hacc Hclients. induction (clients both) as [|[k c] rest IH].
    + now apply elem_of_nil in Hin.
    + change (broadcastWrites data ((k, c) :: rest))
        with ([Write (SSEClient.response c) (frame data)] ++ broadcastWrites data rest).
      rewrite written_app. apply elem_of_cons in Hin as [Heq|Hin].
      * inversion Heq; subst. apply elem_of_app. left.
        rewrite written_same. apply list_elem_of_singleton. reflexivity.
      * apply elem_of_app. right. now apply IH.
Qed.

Lemma duplicate_identifier_silences_first_witness :
  let both :=
    (sseMiddleware (mkRequest 8%nat {[ "clientId" := "dup" ]} JNull) 5%nat
       (sseMiddleware (mkRequest 7%nat {[ "clientId" := "dup" ]} JNull) 4%nat
          Sample.idle).2).2 in
  written 4%nat (calls (broadcast JNull both).2) = written 4%nat (calls both).
Proof.
  assert (W : JSMap.wf (clients Sample.idle)).
  { unfold JSMap.wf. refine (bool_decide_unpack _ _). vm_compute. exact I. }
  refine (proj1 (duplicate_identifier_silences_first Sample.idle
                   (mkRequest 7%nat {[ "clientId" := "dup" ]} JNull)
                   (mkRequest 8%nat {[ "clientId" := "dup" ]} JNull)
                   4%nat 5%nat JNull W eq_refl eq_refl eq_refl _ _)).
  - discriminate.
  - intros k c Hin _. simpl in Hin.
    apply elem_of_cons in Hin as [Heq|Hin]; [inversion Heq; discriminate|].
    apply elem_of_cons in Hin as [Heq|Hin]; [inversion Heq; discriminate|].
    now apply elem_of_nil in Hin.
Defined.

(** X14. Producers that interleave their publishes over several
    identifiers: while the registered responses accept, the batch completes
    normally and every response has received, after what it carried, the
    frames of exactly the publishes addressed to an identifier registered
    to it, in the order of the calls. *)
Theorem interleaved_publishes_keep_order
    (s : State) (ps : list (string * Progress.ProgressUpdate)) :
  accepting s (clients s) ->
  (publishSeq ps s).1 = Normal tt /\
  forall h,
    written h (calls (publishSeq ps s).2)
    = written h (calls s) ++ framesDue (clients s) h ps.
Proof.
  intros Hacc. destruct (publishSeq_accepting ps s Hacc) as (s' & Hrun & _ & _ & Hw).
  rewrite Hrun. split; [reflexivity|exact Hw].
Qed.

Lemma interleaved_publishes_keep_order_witness :
  written 1%nat
    (calls (publishSeq [("abc", Sample.tokenStarted); ("xyz", Sample.tokenBuilding);
                        ("nobody", Sample.tokenBuilding); ("abc", Sample.tokenCompleted)]
              Sample.idle).2)
  = [frame (Progress.toObject Sample.tokenStarted);
     frame (Progress.toObject Sample.tokenCompleted)].
Proof.
  assert (Acc : accepting Sample.idle (clients Sample.idle)).
  { unfold accepting. simpl. repeat constructor. }
  exact (proj2 (interleaved_publishes_keep_order Sample.idle
                  [("abc", Sample.tokenStarted); ("xyz", Sample.tokenBuilding);
                   ("nobody", Sample.tokenBuilding); ("abc", Sample.tokenCompleted)]
                  Acc) 1%nat).
Defined.

(** ** Framing *)

(** X15. Whatever the payload, a frame is one record: before the two line
    feeds that end it there is no control character, so no line feed and
    no carriage return of a message or an identifier can cut it. *)
Theorem frame_is_one_record (data : JSValue) :
  exists payload,
    frame data = payload +:+ newline +:+ newline /\ allPrintable payload = true.
Proof.
  exists ("data: " +:+ stringify data). split.
  - unfold frame. now rewrite append_assoc.
  - now rewrite allPrintable_app, allPrintable_stringify.
Qed.

(** X16. The connected frame tells the client its identifier: reading the
    string that stands under [clientId] gives back the identifier, whatever
    characters it holds, and so two identifiers never share a frame. *)
Theorem connectedFrame_reveals_identifier (a b : string) :
  (exists before,
     connectedFrame a = before +:+ quoteBody a +:+ dquote +:+ "}" +:+ newline +:+ newline /\
     readString (quoteBody a +:+ dquote +:+ "}" +:+ newline +:+ newline)
     = Some (a, "}" +:+ newline +:+ newline)) /\
  (connectedFrame a = connectedFrame b -> a = b).
Proof.
  split.
  - eexists. split; [apply connectedFrame_split|apply readString_quoteBody].
  - intros H. rewrite !connectedFrame_split in H.
    apply (inj (String.append _)) in H.
    apply (f_equal readString) in H. rewrite !readString_quoteBody in H.
    congruence.
Qed.

(** ** Runs of the handlers *)

(** Reads the events off a list of calls that begins with their writes. *)
Ltac reify_updates l :=
  lazymatch l with
  | Write _ (frame (Progress.toObject ?u)) :: ?rest =>
      let r := reify_updates rest in constr:(u :: r)
  | _ => constr:(@nil Progress.ProgressUpdate)
  end.

(** Brings the state of a finished run to one [appendCalls]. *)
Ltac settle :=
  unfold respond, bind, modify, ret; cbv beta iota;
  repeat rewrite logCall_appendCalls; repeat rewrite appendCalls_app; cbn [app].


(** Resolves publishes and reduces until a choice of the run is met. *)
Ltac advance client G F :=
  repeat first
    [ rewrite (sendToClient_accepted _ _ _ client) by first [exact G | exact F]
    | progress cbn [negb orb andb]
    | progress cbv beta iota ].

(** Splits on [t] where the run still depends on it. *)
Ltac choose t :=
  lazymatch goal with
  | |- context [t] => destruct t eqn:?
  | _ => idtac
  end.

Lemma interfere_app a b s :
  Async.interfere (a ++ b) s = Async.interfere b (Async.interfere a s).
Proof. unfold Async.interfere. apply foldl_app. Qed.

Lemma member_body o k : o <> JNull -> member (Some o) k = ret (getProp o k).
Proof. destruct o; [contradiction|reflexivity..]. Qed.


(** Reading a property either raises whatever the name, or reads from a
    value. *)
Lemma member_cases o :
  (readable o = None /\ forall k, exists e, member o k = raise e) \/
  (exists v, readable o = Some v /\ forall k, member o k = ret (getProp v k)).
Proof.
  destruct o as [[| b | n | str | items | members]|];
    first [ left; split; [reflexivity|]; intros k; eexists; reflexivity
          | right; eexists; split; [reflexivity|]; intros k; reflexivity ].
Qed.

(** A run during whose awaits nothing else is handled, on a body that is
    not [null], is the run of [Controllers]. *)
Lemma createToken_undisturbed sdk req res s :
  body req <> JNull ->
  Async.createToken [] [] sdk req res s = createToken sdk req res s.
Proof.
  intros Hbody. unfold Async.createToken. unfold bind at 1.
  rewrite (member_body _ _ Hbody). reflexivity.
Qed.

Lemma deployCollection_undisturbed sdk req res s :
  body req <> JNull ->
  Async.deployCollection [] sdk req res s = deployCollection sdk req res s.
Proof.
  intros Hbody. unfold Async.deployCollection. unfold bind at 1.
  rewrite (member_body _ _ Hbody). reflexivity.
Qed.

Lemma mintCollectionNFT_undisturbed sdk req res s :
  body req <> JNull ->
  Async.mintCollectionNFT [] [] [] sdk req res s = mintCollectionNFT sdk req res s.
Proof.
  intros Hbody. unfold Async.mintCollectionNFT. unfold bind at 1.
  rewrite (member_body _ _ Hbody). reflexivity.
Qed.

(** The run has come as far as the piece asked for, by the choices made
    so far. *)
Ltac far_enough :=
  repeat match goal with
         | E : ?t = _ |- context [?t] => rewrite E
         end;
  cbn [negb orb andb];
  repeat match goal with
         | |- context [match ?x with _ => _ end] => destruct x
         end;
  lia.






(** When the connection of the client closes while the run waits, the
    run answers 200 and the stream never receives a terminal event. *)
Example createToken_close_during_await :
  let connected := (sseMiddleware Sample.connectAbc 4%nat Sample.idle).2 in
  let run := Async.createToken [Async.Closes 7%nat] [] Sample.tokenSdk Sample.tokenRequest
               5%nat connected in
  run.1 = Normal tt /\
  written 4%nat (calls run.2)
  = [connectedFrame "abc";
     frame (Progress.toObject Sample.tokenStarted);
     frame (Progress.toObject
              (stage Progress.Token "initialization" 40 "Initializing connection"));
     frame (Progress.toObject (stage Progress.Token "building" 60 "Building transaction"));
     frame (Progress.toObject
              (stage Progress.Token "finalizing" 80 "Finalizing transaction"))] /\
  last (calls run.2)
  = Some (Json 5%nat
            (JObj [("success", JBool true);
                   ("transaction", JStr "dHJhbnNhY3Rpb24=");
                   ("mint", JStr "mintAddress");
                   ("message", JStr "Transaction prepared successfully")])).
Proof. vm_compute. repeat split. Qed.





Lemma publish_unheard clientId update s :
  unheard s clientId -> publish clientId update s = (Normal tt, s).
Proof.
  intros H. destruct clientId as [[| | |c| |]|]; try reflexivity.
  unfold publish, Progress.sendProgressUpdate. apply sendToClient_absent. now apply H.
Qed.

Ltac unheard_still H :=
  first [ refine (H 0%nat _) | refine (H 1%nat _) | refine (H 2%nat _)
        | refine (H 3%nat _) ];
  far_enough.

Ltac proceed_unheard H :=
  repeat first
    [ rewrite publish_unheard by unheard_still H
    | rewrite <- interfere_app
    | progress cbn [negb orb andb]
    | progress cbv beta iota ].

Ltac proceed_unheard_each H :=
  repeat first
    [ rewrite publish_unheard by unheard_still H
    | progress cbn [negb orb andb]
    | progress cbv beta iota ].

Ltac answer_only_across := settle; do 2 eexists; reflexivity.

(** X20. On a body that is [null] the read of [req.body.clientId], which
    stands before the [try], raises: the run ends by raising to the
    router and has made no call. On any other body, a handler whose
    request names no registered identifier (none at all, one that is no
    string, or one nobody listens to), when the run starts and each time
    it resumes from an await, never raises and writes to no stream:
    whatever the body holds and whichever library call fails, the run
    completes normally and all it does is answer once. *)
Theorem handlers_answer_without_listener
    (atBlockhash atBuild atSend atTest atFetch atCreate : list Async.Step)
    (tokenSdk : TokenSdk) (collectionSdk : CollectionSdk) (mintSdk : MintSdk)
    (req : Request) (res : Res) (s : State) :
  let clientId := getProp (body req) "clientId" in
  let refused :=
    (Throw (Error "Cannot read properties of null (reading 'clientId')"), s) in
  (body req = JNull ->
   Async.createToken atBlockhash atBuild tokenSdk req res s = refused /\
   Async.deployCollection atSend collectionSdk req res s = refused /\
   Async.mintCollectionNFT atTest atFetch atCreate mintSdk req res s = refused) /\
  (body req <> JNull ->
   (let awaits := [atBlockhash ++ atBuild] in
    let n := tokenAwaits tokenSdk req in
    (forall m, (m <= n)%nat -> unheard (waited (take m awaits) s) clientId) ->
    answeredOnly res (waited (take n awaits) s)
      (Async.createToken atBlockhash atBuild tokenSdk req res s)) /\
   (let awaits := [atSend] in
    let n := collectionAwaits collectionSdk req in
    (forall m, (m <= n)%nat -> unheard (waited (take m awaits) s) clientId) ->
    answeredOnly res (waited (take n awaits) s)
      (Async.deployCollection atSend collectionSdk req res s)) /\
   (let awaits := [atTest; atFetch; atCreate] in
    let n := mintAwaits mintSdk req in
    (forall m, (m <= n)%nat -> unheard (waited (take m awaits) s) clientId) ->
    answeredOnly res (waited (take n awaits) s)
      (Async.mintCollectionNFT atTest atFetch atCreate mintSdk req res s))).
Proof.
  intros clientId refused. split.
  { intros Hnull. unfold Async.createToken, Async.deployCollection,
      Async.mintCollectionNFT, bind. rewrite Hnull. repeat split. }
  intros Hbody. split; [|split]; intros awaits n H.
  - unfold n, tokenAwaits in *.
    unfold Async.createToken. unfold bind at 1. rewrite (member_body _ _ Hbody).
    unfold ret at 1. cbv beta iota.
    unfold Async.awaiting, Async.await, tryCatch, bind, modify, external, raise, ret.
    proceed_unheard H;
    choose (negb (truthy (getProp (body req) "name"))
            || negb (truthy (getProp (body req) "uri"))
            || negb (truthy (getProp (body req) "symbol"))
            || negb (truthy (getProp (body req) "publicKey")));
    proceed_unheard H; choose (generateMint tokenSdk);
    proceed_unheard H; choose (buildInstructions tokenSdk);
    proceed_unheard H; choose (serializeTransaction tokenSdk);
    proceed_unheard H; answer_only_across.
  - unfold n, collectionAwaits in *.
    unfold Async.deployCollection. unfold bind at 1. rewrite (member_body _ _ Hbody).
    unfold ret at 1. cbv beta iota.
    unfold Async.awaiting, Async.await, getWalletKeypair, tryCatch, bind, modify,
      external, raise, ret.
    proceed_unheard H;
    choose (negb (truthy (getProp (body req) "name"))
            || negb (truthy (getProp (body req) "uri"))
            || negb (truthy (getProp (body req) "privateKey")));
    proceed_unheard H; choose (decodeCollectionKey collectionSdk);
    proceed_unheard H; choose (connectUmi collectionSdk);
    proceed_unheard H; choose (prepareCollection collectionSdk);
    proceed_unheard H; choose (sendCollection collectionSdk);
    proceed_unheard H; answer_only_across.
  - unfold n, mintAwaits in *.
    unfold Async.mintCollectionNFT. unfold bind at 1. rewrite (member_body _ _ Hbody).
    unfold ret at 1. cbv beta iota.
    destruct (member_cases (getProp (body req) "metadata"))
      as [[Hm Hraise]|[v [Hm Hread]]].
    + destruct (Hraise "name") as [e He]. rewrite He, Hm.
      unfold Async.awaiting, Async.await, getWalletKeypair, tryCatch, bind, modify,
        external, raise, ret.
      proceed_unheard_each H; choose (truthy (getProp (body req) "rpcEndpoint"));
      proceed_unheard_each H; choose (truthy (getProp (body req) "privateKey"));
      proceed_unheard_each H; choose (truthy (getProp (body req) "collectionMint"));
      proceed_unheard_each H; answer_only_across.
    + rewrite (Hread "name"), (Hread "uri"), Hm.
      unfold Async.awaiting, Async.await, getWalletKeypair, tryCatch, bind, modify,
        external, raise, ret.
      proceed_unheard_each H; choose (truthy (getProp (body req) "rpcEndpoint"));
      proceed_unheard_each H; choose (truthy (getProp (body req) "privateKey"));
      proceed_unheard_each H; choose (truthy (getProp (body req) "collectionMint"));
      proceed_unheard_each H; choose (truthy (getProp v "name"));
      proceed_unheard_each H; choose (truthy (getProp v "uri"));
      proceed_unheard_each H; choose (openConnection mintSdk);
      proceed_unheard_each H; choose (getLatestBlockhash mintSdk);
      proceed_unheard_each H; choose (decodeMintKey mintSdk);
      proceed_unheard_each H; choose (initUmi mintSdk);
      proceed_unheard_each H; choose (fetchCollection mintSdk);
      proceed_unheard_each H; choose (createAsset mintSdk);
      proceed_unheard_each H; answer_only_across.
Qed.

(** A request in the name of nobody, while a client connects and
    leaves. *)
Lemma handlers_answer_without_listener_witness :
  let request :=
    mkRequest 12%nat ∅
      (JObj [("clientId", JStr "nobody");
             ("name", JStr "Monkeypox");
             ("uri", JStr "https://arweave.net/metadata.json");
             ("symbol", JStr "MPX");
             ("publicKey", JStr "D4ScX2jf2nkb8ovbFfB8zorpnKrLTXcAXzsc2PZxK92U")]) in
  let atBlockhash := [Async.Connects Sample.connectAbc 6%nat] in
  let atBuild := [Async.Closes 7%nat] in
  body request <> JNull /\
  (forall m, (m <= 1)%nat ->
     unheard (waited (take m [atBlockhash ++ atBuild]) Sample.idle)
       (getProp (body request) "clientId")) /\
  answeredOnly 5%nat (waited [atBlockhash ++ atBuild] Sample.idle)
    (Async.createToken atBlockhash atBuild Sample.tokenSdk request 5%nat Sample.idle).
Proof.
  intros request atBlockhash atBuild.
  assert (Hbody : body request <> JNull) by discriminate.
  assert (H : forall m, (m <= 1)%nat ->
             unheard (waited (take m [atBlockhash ++ atBuild]) Sample.idle)
               (getProp (body request) "clientId")).
  { intros [|[|m]] _ c Hc; injection Hc as <-; reflexivity. }
  split; [exact Hbody|]. split; [exact H|].
  exact (proj1 (proj2 (handlers_answer_without_listener atBlockhash atBuild [] [] [] []
                         Sample.tokenSdk Sample.collectionSdk Sample.mintSdk
                         request 5%nat Sample.idle) Hbody) H).
Defined.

Lemma sendToClient_faulty clientId data s client e :
  JSMap.get clientId (clients s) = Some client ->
  faulty s !! SSEClient.response client = Some e ->
  sendToClient clientId data s = (Throw e, s).
Proof.
  intros G F. rewrite (sendToClient_present _ _ _ _ G). now apply write_raises.
Qed.

(** X21. A handler whose client listens on a response that raises on write
    ends by raising that error to the router, whatever the request body
    holds: the first publish raises, the publish in the catch block raises
    again, and the run has made no call at all, so no answer is sent. *)
Theorem handlers_raise_when_stream_fails
    (tokenSdk : TokenSdk) (collectionSdk : CollectionSdk) (mintSdk : MintSdk)
    (req : Request) (res : Res) (s : State)
    (client : SSEClient.t) (c : string) (e : Exn) :
  getProp (body req) "clientId" = Some (JStr c) ->
  JSMap.get c (clients s) = Some client ->
  faulty s !! SSEClient.response client = Some e ->
  createToken tokenSdk req res s = (Throw e, s) /\
  deployCollection collectionSdk req res s = (Throw e, s) /\
  mintCollectionNFT mintSdk req res s = (Throw e, s).
Proof.
  intros Hid G F. split; [|split].
  - unfold createToken, tryCatch, bind, publish, Progress.sendProgressUpdate.
    rewrite Hid. rewrite (sendToClient_faulty _ _ _ _ _ G F). cbv beta iota.
    now rewrite (sendToClient_faulty _ _ _ _ _ G F).
  - unfold deployCollection, tryCatch, bind, publish, Progress.sendProgressUpdate.
    rewrite Hid. rewrite (sendToClient_faulty _ _ _ _ _ G F). cbv beta iota.
    now rewrite (sendToClient_faulty _ _ _ _ _ G F).
  - unfold mintCollectionNFT, tryCatch, bind, publish, Progress.sendProgressUpdate.
    rewrite Hid. rewrite (sendToClient_faulty _ _ _ _ _ G F). cbv beta iota.
    now rewrite (sendToClient_faulty _ _ _ _ _ G F).
Qed.

Lemma handlers_raise_when_stream_fails_witness :
  createToken Sample.tokenSdk Sample.tokenRequest 5%nat Sample.raisingWrite
  = (Throw (Error "write EPIPE"), Sample.raisingWrite).
Proof.
  exact (proj1 (handlers_raise_when_stream_fails Sample.tokenSdk Sample.collectionSdk
                  Sample.mintSdk Sample.tokenRequest 5%nat Sample.raisingWrite
                  Sample.abc "abc" (Error "write EPIPE") eq_refl eq_refl eq_refl)).
Defined.

(** ** Events and their frames *)

Lemma text_member_inj k x y R R' :
  memberText k (Some (quoteJSONString x)) +:+ R
  = memberText k (Some (quoteJSONString y)) +:+ R' ->
  x = y /\ R = R'.
Proof.
  unfold memberText, quoteJSONString. rewrite !append_assoc. intros H.
  do 4 apply (inj (String.append _)) in H.
  apply (f_equal readString) in H. rewrite !readString_quoteBody in H.
  split; congruence.
Qed.

Lemma uint_app_inj d d' r r' :
  endsNumber r -> endsNumber r' ->
  NilEmpty.string_of_uint d +:+ r = NilEmpty.string_of_uint d' +:+ r' ->
  d = d' /\ r = r'.
Proof.
  revert d'. induction d; destruct d'; cbn [NilEmpty.string_of_uint];
    rewrite ?append_cons; intros Hr Hr' H;
    try discriminate H;
    try (injection H as H; destruct (IHd _ Hr Hr' H) as [-> ->]; now split);
    try (change (EmptyString +:+ r) with r in H;
         change (EmptyString +:+ r') with r' in H; subst;
         first [ now split
               | destruct Hr as [Hd _]; discriminate Hd
               | destruct Hr' as [Hd _]; discriminate Hd ]).
Qed.

Lemma numberToString_app_inj n m r r' :
  endsNumber r -> endsNumber r' ->
  numberToString n +:+ r = numberToString m +:+ r' ->
  n = m /\ r = r'.
Proof.
  unfold numberToString. intros Hr Hr' H.
  assert (Hint : Z.to_int n = Z.to_int m /\ r = r').
  { destruct (Z.to_int n) as [d|d], (Z.to_int m) as [d'|d'];
      cbn [NilEmpty.string_of_int] in H; rewrite ?append_cons in H.
    - destruct (uint_app_inj d d' r r' Hr Hr' H) as [-> ->]. now split.
    - exfalso. destruct d; cbn [NilEmpty.string_of_uint] in H;
        rewrite ?append_cons in H; try discriminate H.
      change (EmptyString +:+ r) with r in H. subst r.
      destruct Hr as [_ Hm]. discriminate Hm.
    - exfalso. destruct d'; cbn [NilEmpty.string_of_uint] in H;
        rewrite ?append_cons in H; try discriminate H.
      change (EmptyString +:+ r') with r' in H. subst r'.
      destruct Hr' as [_ Hm]. discriminate Hm.
    - injection H as H.
      destruct (uint_app_inj d d' r r' Hr Hr' H) as [-> ->]. now split. }
  destruct Hint as [Hi ->]. split; [|reflexivity]. now apply DecimalZ.to_int_inj.
Qed.

Lemma number_member_inj k n m R R' :
  endsNumber R -> endsNumber R' ->
  memberText k (Some (numberToString n)) +:+ R
  = memberText k (Some (numberToString m)) +:+ R' ->
  n = m /\ R = R'.
Proof.
  unfold memberText. rewrite !append_assoc. intros Hr Hr' H.
  do 3 apply (inj (String.append _)) in H.
  now apply numberToString_app_inj.
Qed.

Ltac mismatch H :=
  exfalso;
  repeat match type of H with
         | context [fmap _ ?o] => is_var o; destruct o
         end;
  cbn [fmap option_fmap option_map memberText] in H;
  unfold quoted in H; rewrite ?append_assoc in H;
  cbv [String.append dquote] in H; discriminate H.

Ltac text_field H :=
  lazymatch type of H with
  | memberText ?k (quoteJSONString <$> ?a) +:+ ?R
    = memberText ?k (quoteJSONString <$> ?b) +:+ ?R' =>
      destruct a, b; cbn [fmap option_fmap option_map] in H;
      [ apply text_member_inj in H as [-> H]
      | mismatch H
      | mismatch H
      | change (R = R') in H ]
  end.

Ltac number_field H :=
  lazymatch type of H with
  | memberText ?k (numberToString <$> ?a) +:+ ?R
    = memberText ?k (numberToString <$> ?b) +:+ ?R' =>
      destruct a, b; cbn [fmap option_fmap option_map] in H;
      [ apply number_member_inj in H as [-> H];
        [|apply endsNumber_member, endsNumber_member, endsNumber_close..]
      | mismatch H
      | mismatch H
      | change (R = R') in H ]
  end.

(** X22. The frame of an event loses nothing. For events whose
    [progress], when present, is an integer that JavaScript holds exactly
    (the handlers send percentages), a reader of the stream gets the
    event back from its frame, and two events with the same frame are
    the same event, member for member, whatever text their step,
    message and error hold. *)
Theorem frames_tell_events_apart (u v : Progress.ProgressUpdate) :
  safeProgress u -> safeProgress v ->
  readEvent (frame (Progress.toObject u)) = Some u /\
  (frame (Progress.toObject u) = frame (Progress.toObject v) -> u = v).
Proof.
  intros _ _. split; [apply readEvent_frame|].
  intros H. destruct (frame_names u v H) as [Ht Hst].
  rewrite !frame_decompose in H. rewrite Ht, Hst in H.
  apply (inj (String.append _)) in H.
  destruct u as [t st s1 p1 m1 e1], v as [t' st' s2 p2 m2 e2].
  cbn [Progress.type Progress.status] in Ht, Hst. subst t' st'.
  unfold frameTail in H.
  cbn [Progress.step Progress.progress Progress.message Progress.error] in H.
  text_field H.
  all: number_field H.
  all: text_field H.
  all: text_field H.
  all: reflexivity.
Qed.

Lemma frames_tell_events_apart_witness :
  safeProgress Sample.tokenBuilding /\
  readEvent (frame (Progress.toObject Sample.tokenBuilding)) = Some Sample.tokenBuilding /\
  Sample.tokenBuilding
  = Progress.mkUpdate Progress.Token Progress.InProgress (Some "building") (Some 60)
      (Some "Building transaction") None.
Proof.
  assert (Safe : safeProgress Sample.tokenBuilding).
  { intros n H. injection H as <-. reflexivity. }
  split; [exact Safe|].
  pose proof (frames_tell_events_apart Sample.tokenBuilding
                (Progress.mkUpdate Progress.Token Progress.InProgress (Some "building")
                   (Some 60) (Some "Building transaction") None) Safe Safe) as [Hread Hinj].
  split; [exact Hread|exact (Hinj eq_refl)].
Defined.

(** ** Statements that only log *)

Lemma logs_ret {A} (a : A) : onlyLogs (ret a).
Proof. intros s. exists []. simpl. now rewrite appendCalls_nil. Qed.

Lemma logs_raise {A} (e : Exn) : onlyLogs (@raise A e).
Proof. intros s. exists []. simpl. now rewrite appendCalls_nil. Qed.

Lemma logs_bind {A B} (m : M A) (k : A -> M B) :
  onlyLogs m -> (forall a, onlyLogs (k a)) -> onlyLogs (bind m k).
Proof.
  intros Hm Hk s. unfold bind. destruct (Hm s) as [cs1 H1].
  destruct (m s) as [[a|e] s1]; simpl in *; [|now exists cs1].
  destruct (Hk a s1) as [cs2 H2]. exists (cs1 ++ cs2).
  now rewrite H2, H1, appendCalls_app.
Qed.

Lemma logs_tryCatch {A} (m : M A) (h : Exn -> M A) :
  onlyLogs m -> (forall e, onlyLogs (h e)) -> onlyLogs (tryCatch m h).
Proof.
  intros Hm Hh s. unfold tryCatch. destruct (Hm s) as [cs1 H1].
  destruct (m s) as [[a|e] s1]; simpl in *; [now exists cs1|].
  destruct (Hh e s1) as [cs2 H2]. exists (cs1 ++ cs2).
  now rewrite H2, H1, appendCalls_app.
Qed.

Lemma logs_write res chunk : onlyLogs (write res chunk).
Proof.
  intros s. unfold write. destruct (faulty s !! res).
  - exists []. simpl. now rewrite appendCalls_nil.
  - now exists [Write res chunk].
Qed.

Lemma logs_respond res code body : onlyLogs (respond res code body).
Proof.
  intros s. exists [Status res code; Json res body].
  unfold respond, bind, modify. simpl.
  now rewrite !logCall_appendCalls, appendCalls_app.
Qed.

Lemma logs_sendToClient clientId data : onlyLogs (sendToClient clientId data).
Proof.
  intros s. destruct (JSMap.get clientId (clients s)) as [c|] eqn:G.
  - rewrite (sendToClient_present _ _ _ _ G). apply logs_write.
  - rewrite (sendToClient_absent _ _ _ G). exists []. simpl. now rewrite appendCalls_nil.
Qed.

Lemma logs_publish clientId update : onlyLogs (publish clientId update).
Proof.
  destruct clientId as [[| | |c| |]|]; try apply logs_ret.
  apply logs_sendToClient.
Qed.

Lemma logs_external {A} (o : Exn + A) : onlyLogs (external o).
Proof. destruct o; [apply logs_raise|apply logs_ret]. Qed.

Lemma logs_member o k : onlyLogs (member o k).
Proof. destruct o as [[| | | | |]|]; first [apply logs_raise|apply logs_ret]. Qed.

Lemma logs_getWalletKeypair o : onlyLogs (getWalletKeypair o).
Proof.
  apply logs_tryCatch; [apply logs_external|]. intros e. apply logs_raise.
Qed.

Lemma logs_broadcast data : onlyLogs (broadcast data).
Proof.
  intros s. destruct (forEach_only_writes data (clients s) s) as (cs & Hrun & _).
  exists cs. unfold broadcast, bind, gets. exact Hrun.
Qed.

Create HintDb logs.
#[local] Hint Resolve logs_ret logs_raise logs_write logs_respond
  logs_sendToClient logs_publish logs_external logs_member
  logs_getWalletKeypair : logs.

Ltac logs_walk :=
  cbv zeta;
  repeat first
    [ solve [auto with logs]
    | apply logs_bind; [|intros ?]
    | apply logs_tryCatch; [|intros ?]
    | match goal with
      | |- onlyLogs (if ?b then _ else _) => destruct b
      | |- onlyLogs (match ?o with Some _ => _ | None => _ end) => destruct o
      end ].

(** X23. Publishing, broadcasting and the three handlers change nothing
    but the record of calls: whatever the state and the input, and
    whether they complete or raise, the registry, the listeners, the clock
    and the set of failed responses are afterwards as before. *)
Theorem only_the_call_record_changes
    (clientId : string) (data : JSValue)
    (tokenSdk : TokenSdk) (collectionSdk : CollectionSdk) (mintSdk : MintSdk)
    (req : Request) (res : Res) :
  onlyLogs (sendToClient clientId data) /\
  onlyLogs (broadcast data) /\
  onlyLogs (createToken tokenSdk req res) /\
  onlyLogs (deployCollection collectionSdk req res) /\
  onlyLogs (mintCollectionNFT mintSdk req res).
Proof.
  split; [apply logs_sendToClient|]. split; [apply logs_broadcast|].
  split; [|split].
  - unfold createToken. logs_walk.
  - unfold deployCollection. logs_walk.
  - unfold mintCollectionNFT. logs_walk.
Qed.

(** X24. When the private key does not decode, [deployCollection] answers
    400 with the one message of [getWalletKeypair], whatever error the
    decoding raised and without calling the ledger libraries; it has
    published three events by then, none of them terminal. *)
Theorem deployCollection_key_error_answer
    (sdk : CollectionSdk) (req : Request) (res : Res) (s : State)
    (client : SSEClient.t) (c : string) (e : Exn) :
  getProp (body req) "clientId" = Some (JStr c) ->
  JSMap.get c (clients s) = Some client ->
  faulty s !! SSEClient.response client = None ->
  negb (truthy (getProp (body req) "name"))
  || negb (truthy (getProp (body req) "uri"))
  || negb (truthy (getProp (body req) "privateKey")) = false ->
  decodeCollectionKey sdk = inl e ->
  exists us,
    deployCollection sdk req res s
    = (Normal tt,
       appendCalls
         (published (SSEClient.response client) us
          ++ [Status res 400;
              Json res
                (JObj [("error",
                        JStr "Invalid private key format. Must be base64 encoded.")])])
         s) /\
    length us = 3%nat /\
    forallb (fun u => negb (Progress.terminal u)) us = true.
Proof.
  intros Hid G F Hvalid Hkey.
  unfold deployCollection, getWalletKeypair, tryCatch, bind, publish, external,
    raise, ret, Progress.sendProgressUpdate.
  rewrite Hid, Hvalid, Hkey. advance client G F. settle.
  lazymatch goal with
  | |- exists us, (Normal tt, appendCalls ?cs _) = _ /\ _ =>
      let us := reify_updates cs in exists us
  end.
  split; [reflexivity|split; reflexivity].
Qed.

Lemma deployCollection_key_error_answer_witness :
  exists us,
    deployCollection
      (mkCollectionSdk (inl (Error "bad secret key size")) (inr tt)
         (inr "collectionAddress") (inr "signature"))
      Sample.collectionRequest 5%nat Sample.idle
    = (Normal tt,
       appendCalls
         (published 1%nat us
          ++ [Status 5%nat 400;
              Json 5%nat
                (JObj [("error",
                        JStr "Invalid private key format. Must be base64 encoded.")])])
         Sample.idle) /\
    length us = 3%nat /\
    forallb (fun u => negb (Progress.terminal u)) us = true.
Proof.
  exact (deployCollection_key_error_answer
           (mkCollectionSdk (inl (Error "bad secret key size")) (inr tt)
              (inr "collectionAddress") (inr "signature"))
           Sample.collectionRequest 5%nat Sample.idle Sample.abc "abc"
           (Error "bad secret key size") eq_refl eq_refl eq_refl eq_refl eq_refl).
Defined.
